(** * S3 event notifications: matching, payloads, validation, dispatch

    A shallow embedding of
    [localstack-core/localstack/services/s3/notifications.py]
    and the properties of its matching engine, payload builders,
    per-entry validation and dispatcher.

    Conventions of the embedding.
    - A Python [str] is a [string]; the case mappings ([lower],
      [capitalize]) are the ASCII ones, which is what Python computes
      on ASCII text (event types, rule names, ARNs).
    - A raised exception is a value [Raised e]; a function that mutates
      an argument returns the argument's final state next to its
      outcome, also when it raises.
    - A [datetime] is its number of microseconds on the time line; the
      bounds of the type (years 1 to 9999) are not modelled. *)

From Stdlib Require Import String Ascii List ZArith Bool Arith Lia.
Import ListNotations.
Open Scope string_scope.

(** ** Exceptions and outcomes *)

Inductive exn : Type :=
| ValueError (msg : string)
| KeyError (key : string)
| NotImplementedError
| InvalidArgument (message name value : string).

Inductive outcome (A : Type) : Type :=
| Returned (a : A)
| Raised (e : exn).
Arguments Returned {A} a.
Arguments Raised {A} e.

Definition bind {A B} (m : outcome A) (k : A -> outcome B) : outcome B :=
  match m with
  | Returned a => k a
  | Raised e => Raised e
  end.

Notation "x <- m ;; k" := (bind m (fun x => k))
  (at level 61, m at next level, right associativity).

(** ** The operations of Python's [str] that the module uses *)

Module PyStr.

Definition colon : ascii := ":"%char.

Definition is_upper (c : ascii) : bool :=
  (65 <=? nat_of_ascii c)%nat && (nat_of_ascii c <=? 90)%nat.

Definition is_lower (c : ascii) : bool :=
  (97 <=? nat_of_ascii c)%nat && (nat_of_ascii c <=? 122)%nat.

Definition lower_char (c : ascii) : ascii :=
  if is_upper c then ascii_of_nat (nat_of_ascii c + 32) else c.

Definition upper_char (c : ascii) : ascii :=
  if is_lower c then ascii_of_nat (nat_of_ascii c - 32) else c.

(** [s.lower()] on ASCII text; a character above 127 is left as it is. *)
Fixpoint lower (s : string) : string :=
  match s with
  | EmptyString => EmptyString
  | String c r => String (lower_char c) (lower r)
  end.

(** [s.capitalize()] on ASCII text: first character upper-cased, the rest
    lower-cased; a character above 127 is left as it is. *)
Definition capitalize (s : string) : string :=
  match s with
  | EmptyString => EmptyString
  | String c r => String (upper_char c) (lower r)
  end.

(** [s.startswith(p)] *)
Definition startswith (s p : string) : bool := prefix p s.

(** [s.endswith(p)] *)
Definition endswith (s p : string) : bool :=
  (String.length p <=? String.length s)%nat &&
  (substring (String.length s - String.length p) (String.length p) s =? p).

(** [p in s] on strings *)
Fixpoint contains (p s : string) : bool :=
  prefix p s ||
  match s with
  | EmptyString => false
  | String _ r => contains p r
  end.

(** [s.rindex(":")]: the highest index of a colon; raises [ValueError]
    when there is none. *)
Fixpoint rfind_colon (s : string) : option nat :=
  match s with
  | EmptyString => None
  | String c r =>
      match rfind_colon r with
      | Some i => Some (S i)
      | None => if Ascii.eqb c colon then Some 0%nat else None
      end
  end.

Definition rindex_colon (s : string) : outcome nat :=
  match rfind_colon s with
  | Some i => Returned i
  | None => Raised (ValueError "substring not found")
  end.

(** [s[0:i]] and [s[i:]] *)
Definition slice_to (i : nat) (s : string) : string := substring 0 i s.
Definition slice_from (i : nat) (s : string) : string :=
  substring i (String.length s - i) s.

(** [s.removeprefix(p)] *)
Definition removeprefix (p s : string) : string :=
  if prefix p s then slice_from (String.length p) s else s.

(** [s.strip(c)] for a single character [c] *)
Fixpoint lstrip_char (c : ascii) (s : string) : string :=
  match s with
  | EmptyString => EmptyString
  | String a r => if Ascii.eqb a c then lstrip_char c r else s
  end.

Fixpoint rstrip_char (c : ascii) (s : string) : string :=
  match s with
  | EmptyString => EmptyString
  | String a r =>
      match rstrip_char c r with
      | EmptyString => if Ascii.eqb a c then EmptyString else String a EmptyString
      | r' => String a r'
      end
  end.

Definition strip_char (c : ascii) (s : string) : string :=
  rstrip_char c (lstrip_char c s).

(** Truthiness of a [str]: the empty string is false. *)
Definition truthy (s : string) : bool :=
  match s with
  | EmptyString => false
  | _ => true
  end.

(** [x in l] for a list of strings *)
Definition is_in (x : string) (l : list string) : bool :=
  existsb (String.eqb x) l.

(** No colon occurs in [s]. *)
Fixpoint no_colon (s : string) : Prop :=
  match s with
  | EmptyString => True
  | String c r => c <> colon /\ no_colon r
  end.

End PyStr.
Import PyStr.

(** ** The matching engine *)

(** [_matching_event(events, event_name)] *)
Definition _matching_event (events : list string) (event_name : string)
  : outcome bool :=
  if is_in event_name events then Returned true
  else
    i <- rindex_colon event_name ;;
    let wildcard_pattern := slice_to i event_name ++ ":*" in
    Returned (is_in wildcard_pattern events).

(** ** Data model *)

(** A filter rule, [{"Name": ..., "Value": ...}].  Validation reads both
    members by index ([rule["Name"]], [rule["Value"]]), so both are
    members of every rule. *)
Record FilterRule : Type := {
  Name : string;
  Value : string
}.

(** [{"FilterRules": [...]}]; a member read only through [.get] is optional. *)
Record S3KeyFilter : Type := {
  FilterRules : option (list FilterRule)
}.

(** [{"Key": {...}}] *)
Record NotificationConfigurationFilter : Type := {
  Key : option S3KeyFilter
}.

(** An entry of [QueueConfigurations], [TopicConfigurations] or
    [LambdaFunctionConfigurations].  [Arn] is the member [QueueArn],
    [TopicArn] or [LambdaFunctionArn] of the list the entry belongs to. *)
Record Configuration : Type := {
  Id : option string;
  Arn : option string;
  Events : list string;
  Filter : option NotificationConfigurationFilter
}.

(** What [send_notifications] iterates over: an entry of one of the three
    lists, or the [EventBridgeConfiguration], an empty dict. *)
Inductive Config : Type :=
| Entry (c : Configuration)
| EmptyConfig.

(** An item of the [NotificationConfiguration] dict, in insertion order;
    the key fixes the shape of the value. *)
Inductive ConfigItem : Type :=
| QueueConfigurations (l : list Configuration)
| TopicConfigurations (l : list Configuration)
| LambdaFunctionConfigurations (l : list Configuration)
| EventBridgeConfiguration.

Definition NotificationConfiguration : Type := list ConfigItem.

Record S3EventNotificationContext : Type := {
  request_id : string;
  event_type : string;
  event_time : Z;
  account_id : string;
  region : string;
  bucket_name : string;
  key_name : string;
  xray : option string;
  bucket_location : string;
  bucket_account_id : string;
  caller : string;
  key_size : Z;
  key_etag : string;
  key_version_id : option string;
  key_expiry : option Z;
  key_storage_class : option string
}.

Record BucketVerificationContext : Type := {
  vc_request_id : string;
  vc_bucket_name : string;
  vc_region : string;
  configuration : Configuration;
  skip_destination_validation : bool
}.

(** The members of the request context, the bucket and the object that
    [from_request_context_native] reads. *)
Record RequestContext : Type := {
  rc_bucket : string;          (* service_request["Bucket"] *)
  rc_wire_name : string;       (* operation.wire_name *)
  rc_request_id : string;
  rc_account_id : string;
  rc_region : string;
  rc_xray_header : option string  (* request.headers.get(HEADER_AMZN_XRAY) *)
}.

Record S3Bucket : Type := {
  bucket_region : string;
  owner_account_id : string;   (* bucket_account_id *)
  versioning_status : option string
}.

Inductive S3ObjectOrMarker : Type :=
| S3Object (key etag : string) (size : Z) (expires : option Z)
           (storage_class : option string) (version_id : option string)
| S3DeleteMarker (key : string) (version_id : option string).

Definition object_key (o : S3ObjectOrMarker) : string :=
  match o with
  | S3Object k _ _ _ _ _ => k
  | S3DeleteMarker k _ => k
  end.

Definition object_version_id (o : S3ObjectOrMarker) : option string :=
  match o with
  | S3Object _ _ _ _ _ v => v
  | S3DeleteMarker _ v => v
  end.

(** Modelled from the spec: the enumeration [Event] of
    [localstack.aws.api.s3] is not among the sources.  These are the
    event types that the operation map and the builders name. *)
Definition s3_ObjectCreated_Put := "s3:ObjectCreated:Put".
Definition s3_ObjectCreated_Copy := "s3:ObjectCreated:Copy".
Definition s3_ObjectCreated_CompleteMultipartUpload :=
  "s3:ObjectCreated:CompleteMultipartUpload".
Definition s3_ObjectCreated_Post := "s3:ObjectCreated:Post".
Definition s3_ObjectTagging_Put := "s3:ObjectTagging:Put".
Definition s3_ObjectTagging_Delete := "s3:ObjectTagging:Delete".
Definition s3_ObjectRemoved_Delete := "s3:ObjectRemoved:Delete".
Definition s3_ObjectAcl_Put := "s3:ObjectAcl:Put".
Definition s3_ObjectRestore_Post := "s3:ObjectRestore:Post".
Definition s3_ObjectRestore_Completed := "s3:ObjectRestore:Completed".

Definition EVENT_OPERATION_MAP : list (string * string) :=
  [ ("PutObject", s3_ObjectCreated_Put);
    ("CopyObject", s3_ObjectCreated_Copy);
    ("CompleteMultipartUpload", s3_ObjectCreated_CompleteMultipartUpload);
    ("PostObject", s3_ObjectCreated_Post);
    ("PutObjectTagging", s3_ObjectTagging_Put);
    ("DeleteObjectTagging", s3_ObjectTagging_Delete);
    ("DeleteObject", s3_ObjectRemoved_Delete);
    ("DeleteObjects", s3_ObjectRemoved_Delete);
    ("PutObjectAcl", s3_ObjectAcl_Put);
    ("RestoreObject", s3_ObjectRestore_Post) ].

(** [d.get(k, default)] on a dict with string keys and values *)
Fixpoint map_get (k : string) (d : list (string * string)) (default : string)
  : string :=
  match d with
  | [] => default
  | (k', v) :: rest => if k' =? k then v else map_get k rest default
  end.

(** Truthiness of an optional string: [None] and the empty string are false. *)
Definition truthy_opt (o : option string) : bool :=
  match o with
  | Some s => truthy s
  | None => false
  end.

(** ** Key filters *)

(** The [for rule in filter_rules] loop of [_matching_filter]. *)
Fixpoint matching_rules (filter_rules : list FilterRule) (key_name : string)
  : bool :=
  match filter_rules with
  | [] => true
  | rule :: rest =>
      let name := lower (Name rule) in
      let value := Value rule in
      if (name =? "prefix") && negb (startswith key_name value) then false
      else if (name =? "suffix") && negb (endswith key_name value) then false
      else matching_rules rest key_name
  end.

(** [f.get("Key", {}).get("FilterRules")] *)
Definition get_filter_rules (f : NotificationConfigurationFilter)
  : option (list FilterRule) :=
  match Key f with
  | Some k => FilterRules k
  | None => None
  end.

(** [_matching_filter(notification_filter, key_name)] *)
Definition _matching_filter
  (notification_filter : option NotificationConfigurationFilter)
  (key_name : string) : bool :=
  match notification_filter with
  | None => true
  | Some f =>
      match get_filter_rules f with
      | None => true
      | Some [] => true
      | Some filter_rules => matching_rules filter_rules key_name
      end
  end.

(** ** Notifiers *)

Inductive Notifier : Type :=
| SqsNotifier
| SnsNotifier
| LambdaNotifier
| EventBridgeNotifier.

Definition service_name (self : Notifier) : string :=
  match self with
  | SqsNotifier => "sqs"
  | SnsNotifier => "sns"
  | LambdaNotifier => "lambda"
  | EventBridgeNotifier => "events"
  end.

(** [BaseNotifier.should_notify] *)
Definition BaseNotifier_should_notify (ctx : S3EventNotificationContext)
  (config : Config) : outcome bool :=
  match config with
  | Entry c =>
      matched <- _matching_event (Events c) (event_type ctx) ;;
      Returned (matched && _matching_filter (Filter c) (key_name ctx))
  | EmptyConfig => Raised (KeyError "Events")
  end.

(** [notifier.should_notify(ctx, config)]: [EventBridgeNotifier] overrides
    the method of the base class. *)
Definition should_notify (self : Notifier) (ctx : S3EventNotificationContext)
  (config : Config) : outcome bool :=
  match self with
  | EventBridgeNotifier => Returned true
  | _ => BaseNotifier_should_notify ctx config
  end.

(** [_get_arn_value_and_name] *)
Definition or_empty (o : option string) : string :=
  match o with
  | Some s => s
  | None => EmptyString
  end.

Definition _get_arn_value_and_name (self : Notifier) (c : Configuration)
  : outcome (string * string) :=
  match self with
  | SqsNotifier => Returned (or_empty (Arn c), "QueueArn")
  | SnsNotifier => Returned (or_empty (Arn c), "TopicArn")
  | LambdaNotifier => Returned (or_empty (Arn c), "LambdaFunctionArn")
  | EventBridgeNotifier => Raised NotImplementedError
  end.

(** ** The dispatcher *)

(** [NotificationDispatcher.notifiers[configuration_key]] *)
Definition notifiers (item : ConfigItem) : Notifier :=
  match item with
  | QueueConfigurations _ => SqsNotifier
  | TopicConfigurations _ => SnsNotifier
  | LambdaFunctionConfigurations _ => LambdaNotifier
  | EventBridgeConfiguration => EventBridgeNotifier
  end.

(** [configurations if isinstance(configurations, list) else [configurations]] *)
Definition configurations_of (item : ConfigItem) : list Config :=
  match item with
  | QueueConfigurations l => map Entry l
  | TopicConfigurations l => map Entry l
  | LambdaFunctionConfigurations l => map Entry l
  | EventBridgeConfiguration => [EmptyConfig]
  end.

(** A call [notifier.notify(ctx, config)] handed to the executor. *)
Record Task : Type := {
  task_notifier : Notifier;
  task_ctx : S3EventNotificationContext;
  task_config : Config
}.

(** The executor, a pool that has not been shut down, is the queue of the
    tasks submitted to it, oldest first.  [submit] returns a future that
    the dispatcher drops. *)
Definition Executor : Type := list Task.

(** [_submit_notification(notifier, ctx, config)] *)
Definition _submit_notification (notifier : Notifier)
  (ctx : S3EventNotificationContext) (config : Config) (executor : Executor)
  : Executor :=
  (executor ++ [ {| task_notifier := notifier; task_ctx := ctx;
                    task_config := config |} ])%list.

(** The inner loop of [send_notifications]. *)
Fixpoint submit_matching (notifier : Notifier)
  (ctx : S3EventNotificationContext) (configurations : list Config)
  (executor : Executor) : Executor * outcome unit :=
  match configurations with
  | [] => (executor, Returned tt)
  | config :: rest =>
      match should_notify notifier ctx config with
      | Raised e => (executor, Raised e)
      | Returned true =>
          submit_matching notifier ctx rest
            (_submit_notification notifier ctx config executor)
      | Returned false => submit_matching notifier ctx rest executor
      end
  end.

(** ** Payload values and Python dicts *)

(** The values a payload holds.  [VStamp ms] is the text
    [timestamp_millis] renders, kept as the instant it denotes in whole
    milliseconds. *)
#[local] Unset Elimination Schemes.
Inductive value : Type :=
| VNone
| VStr (s : string)
| VInt (n : Z)
| VStamp (ms : Z)
| VDict (d : list (string * value)).
#[local] Set Elimination Schemes.

(** A dict with string keys, in insertion order. *)
Definition dict : Type := list (string * value).

Module PyDict.

(** [k in d] *)
Fixpoint has_key (k : string) (d : dict) : bool :=
  match d with
  | [] => false
  | (k', _) :: rest => (k' =? k) || has_key k rest
  end.

(** [d.get(k)] *)
Fixpoint get (k : string) (d : dict) : option value :=
  match d with
  | [] => None
  | (k', v) :: rest => if k' =? k then Some v else get k rest
  end.

(** [d[k] = v]: an existing key keeps its place, a new key goes last. *)
Fixpoint set (k : string) (v : value) (d : dict) : dict :=
  match d with
  | [] => [(k, v)]
  | (k', v') :: rest =>
      if k' =? k then (k, v) :: rest else (k', v') :: set k v rest
  end.

(** [d.pop(k, None)] *)
Fixpoint remove (k : string) (d : dict) : dict :=
  match d with
  | [] => []
  | (k', v') :: rest =>
      if k' =? k then rest else (k', v') :: remove k rest
  end.

(** [d.pop(k)]: raises [KeyError] when [k] is not a key. *)
Definition pop (k : string) (d : dict) : outcome dict :=
  if has_key k d then Returned (remove k d) else Raised (KeyError k).

End PyDict.

(** [None] or a string, as a payload value *)
Definition str_or_none (o : option string) : value :=
  match o with
  | Some s => VStr s
  | None => VNone
  end.

(** The TypedDicts of the generic record. *)
Record S3NotificationContent : Type := {
  s3SchemaVersion : string;
  configurationId : option string;
  bucket : dict;
  object : dict
}.

Record EventRecord : Type := {
  eventVersion : string;
  eventSource : string;
  awsRegion : string;
  eventTime : Z;                       (* a [timestamp_millis] text *)
  eventName : string;
  userIdentity : dict;
  requestParameters : dict;
  responseElements : dict;
  s3 : S3NotificationContent;
  glacierEventData : option dict       (* set for completed restores only *)
}.

Record Notification : Type := {
  Records : list EventRecord
}.

(** [record["s3"]["object"] = o] and the other assignments to members of
    the record. *)
Definition set_object (o : dict) (r : EventRecord) : EventRecord :=
  {| eventVersion := eventVersion r; eventSource := eventSource r;
     awsRegion := awsRegion r; eventTime := eventTime r;
     eventName := eventName r; userIdentity := userIdentity r;
     requestParameters := requestParameters r;
     responseElements := responseElements r;
     s3 := {| s3SchemaVersion := s3SchemaVersion (s3 r);
              configurationId := configurationId (s3 r);
              bucket := bucket (s3 r);
              object := o |};
     glacierEventData := glacierEventData r |}.

Definition set_eventVersion (v : string) (r : EventRecord) : EventRecord :=
  {| eventVersion := v; eventSource := eventSource r;
     awsRegion := awsRegion r; eventTime := eventTime r;
     eventName := eventName r; userIdentity := userIdentity r;
     requestParameters := requestParameters r;
     responseElements := responseElements r;
     s3 := s3 r; glacierEventData := glacierEventData r |}.

Definition set_glacierEventData (g : dict) (r : EventRecord) : EventRecord :=
  {| eventVersion := eventVersion r; eventSource := eventSource r;
     awsRegion := awsRegion r; eventTime := eventTime r;
     eventName := eventName r; userIdentity := userIdentity r;
     requestParameters := requestParameters r;
     responseElements := responseElements r;
     s3 := s3 r; glacierEventData := Some g |}.

Definition set_userIdentity (u : dict) (r : EventRecord) : EventRecord :=
  {| eventVersion := eventVersion r; eventSource := eventSource r;
     awsRegion := awsRegion r; eventTime := eventTime r;
     eventName := eventName r; userIdentity := u;
     requestParameters := requestParameters r;
     responseElements := responseElements r;
     s3 := s3 r; glacierEventData := glacierEventData r |}.

Definition set_eventTime (t : Z) (r : EventRecord) : EventRecord :=
  {| eventVersion := eventVersion r; eventSource := eventSource r;
     awsRegion := awsRegion r; eventTime := t;
     eventName := eventName r; userIdentity := userIdentity r;
     requestParameters := requestParameters r;
     responseElements := responseElements r;
     s3 := s3 r; glacierEventData := glacierEventData r |}.

(** The entry [EventBridgeNotifier] sends.  [Detail] holds the object
    that [json.dumps] serialises. *)
Record PutEventsRequestEntry : Type := {
  Source : string;
  Resources : list string;
  EntryTime : Z;                       (* "Time", a datetime *)
  TraceHeader : option string;
  DetailType : option string;
  Detail : option dict
}.

Definition set_TraceHeader (h : string) (e : PutEventsRequestEntry) :=
  {| Source := Source e; Resources := Resources e; EntryTime := EntryTime e;
     TraceHeader := Some h; DetailType := DetailType e; Detail := Detail e |}.

Definition set_DetailType (t : string) (e : PutEventsRequestEntry) :=
  {| Source := Source e; Resources := Resources e; EntryTime := EntryTime e;
     TraceHeader := TraceHeader e; DetailType := Some t; Detail := Detail e |}.

Definition set_Time (t : Z) (e : PutEventsRequestEntry) :=
  {| Source := Source e; Resources := Resources e; EntryTime := t;
     TraceHeader := TraceHeader e; DetailType := DetailType e;
     Detail := Detail e |}.

Definition set_Detail (d : dict) (e : PutEventsRequestEntry) :=
  {| Source := Source e; Resources := Resources e; EntryTime := EntryTime e;
     TraceHeader := TraceHeader e; DetailType := DetailType e;
     Detail := Some d |}.

(** [event_details["object"]], and an update of it in place. *)
Definition details_object (event_details : dict) : outcome dict :=
  match PyDict.get "object" event_details with
  | Some (VDict o) => Returned o
  | _ => Raised (KeyError "object")
  end.

Definition on_object (f : dict -> outcome dict) (event_details : dict)
  : outcome dict :=
  o <- details_object event_details ;;
  o' <- f o ;;
  Returned (PyDict.set "object" (VDict o') event_details).

(** [datetime.timedelta] in microseconds *)
Definition timedelta_milliseconds (n : Z) : Z := (n * 1000)%Z.
Definition timedelta_seconds (n : Z) : Z := (n * 1000000)%Z.

(** Modelled from the spec: [parse_timestamp] of [localstack.utils.time]
    is not among the sources.  It reads back the instant of a formatted
    timestamp. *)
Definition parse_timestamp (ms : Z) : Z := (ms * 1000)%Z.

Section Environment.

(** [is_api_enabled(service)], the administrative switch of a service. *)
Variable is_api_enabled : string -> bool.

(** [NotificationDispatcher.send_notifications(ctx, notification_config)] *)
Fixpoint send_notifications (ctx : S3EventNotificationContext)
  (notification_config : NotificationConfiguration) (executor : Executor)
  : Executor * outcome unit :=
  match notification_config with
  | [] => (executor, Returned tt)
  | item :: rest =>
      let notifier := notifiers item in
      if negb (is_api_enabled (service_name notifier)) then
        send_notifications ctx rest executor
      else
        match submit_matching notifier ctx (configurations_of item) executor with
        | (executor', Returned _) => send_notifications ctx rest executor'
        | (executor', Raised e) => (executor', Raised e)
        end
  end.


(** [get_partition(region)], the partition of a region. *)
Variable get_partition : string -> string.

(** [datetime.utcnow()] at the time of the call. *)
Variable utcnow : Z.

(** Modelled from the spec: [timestamp_millis] of [localstack.utils.time]
    is not among the sources.  It formats a datetime with millisecond
    precision, the microseconds truncated; without a datetime it formats
    the current time. *)
Definition timestamp_millis (time : option Z) : Z :=
  match time with
  | Some t => (t / 1000)%Z
  | None => (utcnow / 1000)%Z
  end.

(** ** The generic record *)

(** [BaseNotifier._get_event_payload(ctx, config_id)]; [request_uid] is
    the [short_uid()] drawn for [x-amz-request-id]. *)
Definition BaseNotifier_get_event_payload (request_uid : string)
  (ctx : S3EventNotificationContext) (config_id : option string)
  : outcome Notification :=
  let partition := get_partition (region ctx) in
  let record :=
    {| eventVersion := "2.1";
       eventSource := "aws:s3";
       awsRegion := bucket_location ctx;
       eventTime := timestamp_millis (Some (event_time ctx));
       eventName := removeprefix "s3:" (event_type ctx);
       userIdentity := [("principalId", VStr "AIDAJDPLRKLG7UEXAMPLE")];
       requestParameters := [("sourceIPAddress", VStr "127.0.0.1")];
       responseElements :=
         [("x-amz-request-id", VStr request_uid);
          ("x-amz-id-2", VStr "eftixk72aD6Ap51TnqcoF8eFidJG9Z/2")];
       s3 :=
         {| s3SchemaVersion := "1.0";
            configurationId := config_id;
            bucket :=
              [("name", VStr (bucket_name ctx));
               ("ownerIdentity",
                VDict [("principalId", VStr "A3NL1KOZZKExample")]);
               ("arn", VStr ("arn:" ++ partition ++ ":s3:::" ++ bucket_name ctx))];
            object :=
              [("key", VStr (key_name ctx));
               ("sequencer", VStr "0055AED6DCD90281E5")] |};
       glacierEventData := None |} in
  let record :=
    match key_version_id ctx with
    | Some v =>
        if truthy v && negb (v =? "null") then
          set_object (PyDict.set "versionId" (VStr v) (object (s3 record))) record
        else record
    | None => record
    end in
  let event_type' := lower (event_type ctx) in
  let record :=
    if contains "created" event_type' || contains "restore" event_type' then
      let record :=
        set_object (PyDict.set "eTag" (VStr (key_etag ctx)) (object (s3 record)))
          record in
      if negb (contains "deletemarker" event_type') then
        set_object (PyDict.set "size" (VInt (key_size ctx)) (object (s3 record)))
          record
      else record
    else record in
  record <-
    (if contains "ObjectTagging" (event_type ctx)
        || contains "ObjectAcl" (event_type ctx) then
       let record := set_eventVersion "2.3" record in
       let record :=
         set_object (PyDict.set "eTag" (VStr (key_etag ctx)) (object (s3 record)))
           record in
       o <- PyDict.pop "sequencer" (object (s3 record)) ;;
       Returned (set_object o record)
     else Returned record) ;;
  let record :=
    if contains "objectrestore:completed" event_type' then
      let record :=
        set_glacierEventData
          [("restoreEventData",
            VDict
              [("lifecycleRestorationExpiryTime",
                VStamp (timestamp_millis (key_expiry ctx)));
               ("lifecycleRestoreStorageClass",
                str_or_none (key_storage_class ctx))])]
          record in
      let record :=
        set_userIdentity
          (PyDict.set "principalId" (VStr "AmazonCustomer:A3NL1KOZZKExample")
             (userIdentity record))
          record in
      let event_time' :=
        (parse_timestamp (eventTime record) + timedelta_milliseconds 500)%Z in
      set_eventTime (timestamp_millis (Some event_time')) record
    else record in
  Returned {| Records := [record] |}.

(** ** The event-bus entry *)

(** The [elif] chain of [EventBridgeNotifier._get_event_payload] on the
    event type. *)
Definition eventbridge_by_event_type (ctx : S3EventNotificationContext)
  (entry : PutEventsRequestEntry) (event_details : dict)
  : outcome (PutEventsRequestEntry * dict) :=
  let et := event_type ctx in
  if contains "ObjectCreated" et then
    let entry := set_DetailType "Object Created" entry in
    i <- rindex_colon et ;;
    let event_action := slice_from (i + 1) et in
    let event_type' :=
      if is_in event_action ["Put"; "Post"; "Copy"]
      then event_action ++ "Object" else et in
    Returned (entry, PyDict.set "reason" (VStr event_type') event_details)
  else if contains "ObjectRemoved" et then
    let entry := set_DetailType "Object Deleted" entry in
    let event_details := PyDict.set "reason" (VStr "DeleteObject") event_details in
    r <- (if contains "DeleteMarkerCreated" et then
            Returned ("Delete Marker Created", event_details)
          else
            d <- on_object (PyDict.pop "etag") event_details ;;
            Returned ("Permanently Deleted", d)) ;;
    let event_details :=
      PyDict.set "deletion-type" (VStr (fst r)) (snd r) in
    event_details <- on_object (PyDict.pop "size") event_details ;;
    Returned (entry, event_details)
  else if contains "ObjectTagging" et then
    let entry :=
      set_DetailType
        (if contains "Put" et then "Object Tags Added" else "Object Tags Deleted")
        entry in
    Returned (entry, event_details)
  else if contains "ObjectAcl" et then
    let entry := set_DetailType "Object ACL Updated" entry in
    event_details <- on_object (PyDict.pop "size") event_details ;;
    event_details <- on_object (PyDict.pop "sequencer") event_details ;;
    Returned (entry, event_details)
  else if contains "ObjectRestore" et then
    let entry :=
      set_DetailType
        (if contains "Post" et then "Object Restore Initiated"
         else "Object Restore Completed")
        entry in
    let event_details :=
      PyDict.set "source-storage-class" (str_or_none (key_storage_class ctx))
        event_details in
    event_details <-
      on_object (fun o => Returned (PyDict.remove "sequencer" o)) event_details ;;
    if endswith et "Completed" then
      let event_details :=
        PyDict.set "restore-expiry-time"
          (VStamp (timestamp_millis (key_expiry ctx))) event_details in
      let event_details := PyDict.remove "source-ip-address" event_details in
      Returned (set_Time (EntryTime entry + timedelta_seconds 1)%Z entry,
                event_details)
    else Returned (entry, event_details)
  else Returned (entry, event_details).

(** [EventBridgeNotifier._get_event_payload(ctx)] *)
Definition EventBridgeNotifier_get_event_payload
  (ctx : S3EventNotificationContext) : outcome PutEventsRequestEntry :=
  let partition := get_partition (region ctx) in
  let entry :=
    {| Source := "aws.s3";
       Resources := ["arn:" ++ partition ++ ":s3:::" ++ bucket_name ctx];
       EntryTime := event_time ctx;
       TraceHeader := None;
       DetailType := None;
       Detail := None |} in
  let entry :=
    match xray ctx with
    | Some h => if truthy h then set_TraceHeader h entry else entry
    | None => entry
    end in
  let event_details :=
    [("version", VStr "0");
     ("bucket", VDict [("name", VStr (bucket_name ctx))]);
     ("object",
      VDict [("key", VStr (key_name ctx));
             ("size", VInt (key_size ctx));
             ("etag", VStr (key_etag ctx));
             ("sequencer", VStr "0062E99A88DC407460")]);
     ("request-id", VStr (request_id ctx));
     ("requester", VStr "074255357339");
     ("source-ip-address", VStr "127.0.0.1")] in
  event_details <-
    match key_version_id ctx with
    | Some v =>
        if truthy v && negb (v =? "null") then
          on_object (fun o => Returned (PyDict.set "version-id" (VStr v) o))
            event_details
        else Returned event_details
    | None => Returned event_details
    end ;;
  r <- eventbridge_by_event_type ctx entry event_details ;;
  Returned (set_Detail (snd r) (fst r)).

(** ** Building the event context *)

(** [urllib.parse.quote] *)
Variable quote : string -> string.

Definition double_quote : ascii := ascii_of_nat 34.

(** [S3EventNotificationContext.from_request_context_native]; [now] is
    [datetime.datetime.now()] at the time of the call. *)
Definition from_request_context_native (now : Z)
  (request_context : RequestContext) (s3_bucket : S3Bucket)
  (s3_object : S3ObjectOrMarker) : S3EventNotificationContext :=
  let bucket_name' := rc_bucket request_context in
  let event_type' :=
    map_get (rc_wire_name request_context) EVENT_OPERATION_MAP EmptyString in
  let '(etag, key_size', key_expiry', storage_class) :=
    match s3_object with
    | S3DeleteMarker _ _ =>
        ("d41d8cd98f00b204e9800998ecf8427e", 0%Z, None, Some EmptyString)
    | S3Object _ etag size expires storage_class _ =>
        (strip_char double_quote etag, size, expires, storage_class)
    end in
  {| request_id := rc_request_id request_context;
     event_type := event_type';
     event_time := now;
     account_id := rc_account_id request_context;
     region := rc_region request_context;
     caller := rc_account_id request_context;
     bucket_name := bucket_name';
     bucket_location := bucket_region s3_bucket;
     bucket_account_id := owner_account_id s3_bucket;
     key_name := quote (object_key s3_object);
     key_etag := etag;
     key_size := key_size';
     key_expiry := key_expiry';
     key_storage_class := storage_class;
     key_version_id :=
       if truthy_opt (versioning_status s3_bucket)
       then object_version_id s3_object else None;
     xray := rc_xray_header request_context |}.

(** ** Validation of a configuration *)

(** Modelled from the spec: the constant [ARN_PARTITION_REGEX] of
    [localstack.utils.aws.arns] is not among the sources.  The pattern
    ["{ARN_PARTITION_REGEX}:{service_name}:"] matches at the start of an
    ARN that reads [arn:], a partition name, [:], the service, [:]. *)
Variable partitions : list string.

Definition arn_matches (service arn : string) : bool :=
  existsb (fun p => prefix ("arn:" ++ p ++ ":" ++ service ++ ":") arn)
    partitions.

(** [short_uid()]: the identifier handed out at the n-th draw. *)
Variable short_uid : nat -> string.

(** What validation leaves behind outside the configuration: how many
    identifiers it drew, and the calls of [_verify_target], oldest first. *)
Record World : Type := {
  uid_draws : nat;
  verify_calls : list (Notifier * string)
}.

(** The outcome of the live check of a destination (the lookup of the
    resource and the test message), at the n-th call of [_verify_target]. *)
Variable live_check :
  nat -> Notifier -> string -> BucketVerificationContext -> outcome unit.

(** [self._verify_target(target_arn, verification_ctx)] *)
Definition _verify_target (self : Notifier) (target_arn : string)
  (verification_ctx : BucketVerificationContext) (w : World)
  : World * outcome unit :=
  let w' := {| uid_draws := uid_draws w;
               verify_calls := (verify_calls w ++ [(self, target_arn)])%list |} in
  match self with
  | EventBridgeNotifier => (w', Returned tt)
  | _ => (w', live_check (List.length (verify_calls w)) self target_arn
                verification_ctx)
  end.

Definition set_Id (i : string) (c : Configuration) : Configuration :=
  {| Id := Some i; Arn := Arn c; Events := Events c; Filter := Filter c |}.

(** [configuration.get("Filter", {}).get("Key", {}).get("FilterRules")] *)
Definition configured_filter_rules (c : Configuration)
  : option (list FilterRule) :=
  match Filter c with
  | Some f => get_filter_rules f
  | None => None
  end.

(** The rules of a configuration that has some, after their update in place. *)
Definition set_filter_rules (rules : list FilterRule) (c : Configuration)
  : Configuration :=
  {| Id := Id c; Arn := Arn c; Events := Events c;
     Filter := Some {| Key := Some {| FilterRules := Some rules |} |} |}.

Definition set_configuration (c : Configuration)
  (v : BucketVerificationContext) : BucketVerificationContext :=
  {| vc_request_id := vc_request_id v; vc_bucket_name := vc_bucket_name v;
     vc_region := vc_region v; configuration := c;
     skip_destination_validation := skip_destination_validation v |}.

(** [rule["Name"] = rule["Name"].capitalize()] *)
Definition normalize_rule (rule : FilterRule) : FilterRule :=
  {| Name := capitalize (Name rule); Value := Value rule |}.

(** The [for rule in filter_rules] loop of [_validate_notification]: the
    rules as the loop leaves them, and its outcome. *)
Fixpoint validate_filter_rules (filter_rules : list FilterRule)
  : list FilterRule * outcome unit :=
  match filter_rules with
  | [] => ([], Returned tt)
  | rule :: rest =>
      let rule := normalize_rule rule in
      if negb (is_in (Name rule) ["Suffix"; "Prefix"]) then
        (rule :: rest,
         Raised (InvalidArgument
                   "filter rule name must be either prefix or suffix"
                   (Name rule) (Value rule)))
      else if negb (truthy (Value rule)) then
        (rule :: rest,
         Raised (InvalidArgument "filter value cannot be empty"
                   (Name rule) (Value rule)))
      else
        let '(rest', res) := validate_filter_rules rest in
        (rule :: rest', res)
  end.

(** [self._validate_notification(verification_ctx)]: the configuration
    as the call leaves it, the world, and the outcome. *)
Definition _validate_notification (self : Notifier)
  (verification_ctx : BucketVerificationContext) (w : World)
  : Configuration * World * outcome unit :=
  let configuration0 := configuration verification_ctx in
  let '(configuration1, w1) :=
    if negb (truthy_opt (Id configuration0)) then
      (set_Id (short_uid (uid_draws w)) configuration0,
       {| uid_draws := S (uid_draws w); verify_calls := verify_calls w |})
    else (configuration0, w) in
  match _get_arn_value_and_name self configuration1 with
  | Raised e => (configuration1, w1, Raised e)
  | Returned (arn, argument_name) =>
      if negb (arn_matches (service_name self) arn) then
        (configuration1, w1,
         Raised (InvalidArgument "The ARN could not be parsed"
                   argument_name arn))
      else
        let '(w2, verified) :=
          if negb (skip_destination_validation verification_ctx) then
            _verify_target self arn
              (set_configuration configuration1 verification_ctx) w1
          else (w1, Returned tt) in
        match verified with
        | Raised e => (configuration1, w2, Raised e)
        | Returned _ =>
            match configured_filter_rules configuration1 with
            | Some (rule :: rest) =>
                let '(rules', res) := validate_filter_rules (rule :: rest) in
                (set_filter_rules rules' configuration1, w2, res)
            | _ => (configuration1, w2, Returned tt)
            end
        end
  end.

(** The loop of [BaseNotifier.validate_configuration_for_notifier]. *)
Fixpoint validate_each (self : Notifier) (configurations : list Configuration)
  (skip : bool) (context : RequestContext) (bucket_name' : string) (w : World)
  : list Configuration * World * outcome unit :=
  match configurations with
  | [] => ([], w, Returned tt)
  | c :: rest =>
      let '(c', w', res) :=
        _validate_notification self
          {| configuration := c;
             vc_bucket_name := bucket_name';
             vc_region := rc_region context;
             vc_request_id := rc_request_id context;
             skip_destination_validation := skip |} w in
      match res with
      | Raised e => (c' :: rest, w', Raised e)
      | Returned _ =>
          let '(rest', w'', res') :=
            validate_each self rest skip context bucket_name' w' in
          (c' :: rest', w'', res')
      end
  end.

(** [self.validate_configuration_for_notifier(...)]: [EventBridgeNotifier]
    overrides the method and returns at once. *)
Definition validate_configuration_for_notifier (self : Notifier)
  (configurations : list Configuration) (skip : bool)
  (context : RequestContext) (bucket_name' : string) (w : World)
  : list Configuration * World * outcome unit :=
  match self with
  | EventBridgeNotifier => (configurations, w, Returned tt)
  | _ => validate_each self configurations skip context bucket_name' w
  end.

(** One turn of the loop of [verify_configuration]. *)
Definition verify_item (item : ConfigItem) (skip : bool)
  (context : RequestContext) (bucket_name' : string) (w : World)
  : ConfigItem * World * outcome unit :=
  let self := notifiers item in
  match item with
  | QueueConfigurations l =>
      let '(l', w', res) :=
        validate_configuration_for_notifier self l skip context bucket_name' w in
      (QueueConfigurations l', w', res)
  | TopicConfigurations l =>
      let '(l', w', res) :=
        validate_configuration_for_notifier self l skip context bucket_name' w in
      (TopicConfigurations l', w', res)
  | LambdaFunctionConfigurations l =>
      let '(l', w', res) :=
        validate_configuration_for_notifier self l skip context bucket_name' w in
      (LambdaFunctionConfigurations l', w', res)
  | EventBridgeConfiguration =>
      let '(_, w', res) :=
        validate_configuration_for_notifier self [] skip context bucket_name' w in
      (EventBridgeConfiguration, w', res)
  end.

(** [NotificationDispatcher.verify_configuration(...)] *)
Fixpoint verify_configuration
  (notification_configurations : NotificationConfiguration) (skip : bool)
  (context : RequestContext) (bucket_name' : string) (w : World)
  : NotificationConfiguration * World * outcome unit :=
  match notification_configurations with
  | [] => ([], w, Returned tt)
  | item :: rest =>
      let '(item', w', res) := verify_item item skip context bucket_name' w in
      match res with
      | Raised e => (item' :: rest, w', Raised e)
      | Returned _ =>
          let '(rest', w'', res') :=
            verify_configuration rest skip context bucket_name' w' in
          (item' :: rest', w'', res')
      end
  end.

(** ** Vocabulary of the properties *)

(** [p] is a literal prefix, a literal suffix, of [s]. *)
Definition is_prefix_of (p s : string) : Prop := exists r, s = p ++ r.
Definition is_suffix_of (p s : string) : Prop := exists r, s = r ++ p.

(** A Prefix rule, a Suffix rule: the name is compared without regard to
    case. *)
Definition prefix_rule (rule : FilterRule) : Prop :=
  lower (Name rule) = "prefix".
Definition suffix_rule (rule : FilterRule) : Prop :=
  lower (Name rule) = "suffix".

Definition rule_passes (rule : FilterRule) (key_name : string) : Prop :=
  (prefix_rule rule -> is_prefix_of (Value rule) key_name) /\
  (suffix_rule rule -> is_suffix_of (Value rule) key_name).

(** The rules of a filter structure; none when a level is absent. *)
Definition rules_of (notification_filter : option NotificationConfigurationFilter)
  : list FilterRule :=
  match notification_filter with
  | Some f =>
      match get_filter_rules f with
      | Some rules => rules
      | None => []
      end
  | None => []
  end.

(** [{"Key": {"FilterRules": rules}}] *)
Definition filter_of_rules (rules : list FilterRule)
  : NotificationConfigurationFilter :=
  {| Key := Some {| FilterRules := Some rules |} |}.

Definition prefix_images : FilterRule :=
  {| Name := "Prefix"; Value := "images/" |}.
Definition suffix_png : FilterRule :=
  {| Name := "Suffix"; Value := ".png" |}.

(** The task the dispatcher submits for an entry. *)
Definition task_for (notifier : Notifier) (ctx : S3EventNotificationContext)
  (config : Config) : Task :=
  {| task_notifier := notifier; task_ctx := ctx; task_config := config |}.

(** The entries of a list for which [should_notify] is true, as tasks. *)
Definition matching_entries (notifier : Notifier)
  (ctx : S3EventNotificationContext) (configurations : list Config)
  : list Task :=
  flat_map
    (fun config =>
       match should_notify notifier ctx config with
       | Returned true => [task_for notifier ctx config]
       | _ => []
       end)
    configurations.

(** The tasks of the entries of enabled kinds for which [should_notify]
    is true, in the order of the configuration. *)
Definition matching_tasks (ctx : S3EventNotificationContext)
  (notification_config : NotificationConfiguration) : list Task :=
  flat_map
    (fun item =>
       if is_api_enabled (service_name (notifiers item)) then
         matching_entries (notifiers item) ctx (configurations_of item)
       else [])
    notification_config.

(** No evaluation of [should_notify] on an entry of an enabled kind raises. *)
Definition decides_every_entry (ctx : S3EventNotificationContext)
  (notification_config : NotificationConfiguration) : Prop :=
  forall item config,
    In item notification_config ->
    is_api_enabled (service_name (notifiers item)) = true ->
    In config (configurations_of item) ->
    exists b, should_notify (notifiers item) ctx config = Returned b.

(** An event context to evaluate the builders on. *)
Definition sample_ctx (event_type' : string) (version_id : option string)
  : S3EventNotificationContext :=
  {| request_id := "0123456789ABCDEF";
     event_type := event_type';
     event_time := 1700000000123456%Z;
     account_id := "000000000000";
     region := "us-east-1";
     bucket_name := "photos";
     key_name := "images/cat.png";
     xray := None;
     bucket_location := "us-east-1";
     bucket_account_id := "000000000000";
     caller := "000000000000";
     key_size := 2048%Z;
     key_etag := "9b2cf535f27731c974343645a3985328";
     key_version_id := version_id;
     key_expiry := Some 1700086400000000%Z;
     key_storage_class := Some "GLACIER" |}.

(** A rule that validation accepts: its capitalized name is [Prefix] or
    [Suffix] and its value is not empty. *)
Definition valid_name (rule : FilterRule) : Prop :=
  capitalize (Name rule) = "Prefix" \/ capitalize (Name rule) = "Suffix".

Definition valid_rule (rule : FilterRule) : Prop :=
  valid_name rule /\ Value rule <> EmptyString.

(** The configuration once its [Id] is settled, and the world after the
    draw that this may take. *)
Definition with_id (w : World) (c : Configuration) : Configuration :=
  if negb (truthy_opt (Id c)) then set_Id (short_uid (uid_draws w)) c else c.

Definition after_id (w : World) (c : Configuration) : World :=
  if negb (truthy_opt (Id c)) then
    {| uid_draws := S (uid_draws w); verify_calls := verify_calls w |}
  else w.

(** The configuration with its rules replaced, when it has rules. *)
Definition with_rules (rules : list FilterRule) (c : Configuration)
  : Configuration :=
  match configured_filter_rules c with
  | Some (_ :: _) => set_filter_rules rules c
  | _ => c
  end.

(** The destination ARN of an entry as validation reads it. *)
Definition destination_arn (c : Configuration) : string := or_empty (Arn c).

(** Validation of the entry gets as far as the filter rules: the ARN has
    the notifier's pattern, and the live check is skipped or passes. *)
Definition passes_destination_checks (self : Notifier)
  (verification_ctx : BucketVerificationContext) (w : World) : Prop :=
  self <> EventBridgeNotifier /\
  arn_matches (service_name self)
    (destination_arn (configuration verification_ctx)) = true /\
  (skip_destination_validation verification_ctx = true \/
   live_check (List.length (verify_calls w)) self
     (destination_arn (configuration verification_ctx))
     (set_configuration (with_id w (configuration verification_ctx))
        verification_ctx)
   = Returned tt).

Definition name_message : string :=
  "filter rule name must be either prefix or suffix".
Definition value_message : string := "filter value cannot be empty".
Definition arn_message : string := "The ARN could not be parsed".

(** An environment to evaluate the module in: every service enabled, one
    partition per region, a fixed clock, a generator that numbers its
    identifiers, destinations that pass the live check. *)
Definition all_enabled : string -> bool := fun _ => true.
Definition sample_partition : string -> string := fun _ => "aws".
Definition sample_now : Z := 1700000100000000%Z.
Definition sample_partitions : list string := ["aws"; "aws-cn"; "aws-us-gov"].
Definition sample_uid : nat -> string :=
  fun n => "uid-" ++ String (ascii_of_nat (48 + n)) EmptyString.
Definition live_ok
  : nat -> Notifier -> string -> BucketVerificationContext -> outcome unit :=
  fun _ _ _ _ => Returned tt.
Definition sample_quote : string -> string := fun s => s.
Definition fresh_world : World := {| uid_draws := 0; verify_calls := [] |}.

Definition sample_entry (events : list string) (rules : list FilterRule)
  : Configuration :=
  {| Id := None;
     Arn := Some "arn:aws:sqs:us-east-1:000000000000:uploads";
     Events := events;
     Filter := Some (filter_of_rules rules) |}.

Definition sample_verification (c : Configuration) (skip : bool)
  : BucketVerificationContext :=
  {| vc_request_id := "0123456789ABCDEF";
     vc_bucket_name := "photos";
     vc_region := "us-east-1";
     configuration := c;
     skip_destination_validation := skip |}.

Definition sample_request (wire_name : string) : RequestContext :=
  {| rc_bucket := "photos";
     rc_wire_name := wire_name;
     rc_request_id := "0123456789ABCDEF";
     rc_account_id := "000000000000";
     rc_region := "us-east-1";
     rc_xray_header := None |}.

Definition sample_bucket : S3Bucket :=
  {| bucket_region := "us-east-1";
     owner_account_id := "000000000000";
     versioning_status := None |}.

(** A context whose event type is empty, and a configuration with a queue
    entry ahead of the EventBridge configuration. *)
Definition untyped_ctx : S3EventNotificationContext :=
  sample_ctx EmptyString None.

Definition created_entry : Configuration :=
  sample_entry ["s3:ObjectCreated:*"] [].

Definition mixed_config : NotificationConfiguration :=
  [QueueConfigurations [created_entry]; EventBridgeConfiguration].

(** An entry without [Id] whose second rule has a name that is rejected. *)
Definition three_rules : list FilterRule :=
  [ {| Name := "prefix"; Value := "images/" |};
    {| Name := "middle"; Value := "cat" |};
    {| Name := "suffix"; Value := ".png" |} ].

Definition shouting_rule : FilterRule :=
  {| Name := "PREFIX"; Value := "images/" |}.

(** The world after a call of [_verify_target] on an entry. *)
Definition called (self : Notifier) (c : Configuration) (w : World) : World :=
  {| uid_draws := uid_draws w;
     verify_calls := (verify_calls w ++ [(self, destination_arn c)])%list |}.

(** The name and the value of a rule are what validation demands. *)
Definition named_prefix_or_suffix (rule : FilterRule) : Prop :=
  Name rule = "Prefix" \/ Name rule = "Suffix".

(** The calls of [_verify_target] that a configuration asks for: one per
    entry of the three lists, in the order of the configuration. *)
Definition entries_of (item : ConfigItem) : list Configuration :=
  match item with
  | QueueConfigurations l => l
  | TopicConfigurations l => l
  | LambdaFunctionConfigurations l => l
  | EventBridgeConfiguration => []
  end.

Definition expected_calls (notification_configurations : NotificationConfiguration)
  : list (Notifier * string) :=
  flat_map
    (fun item =>
       map (fun c => (notifiers item, destination_arn c)) (entries_of item))
    notification_configurations.

(** A destination that fails the live check. *)
Definition live_missing
  : nat -> Notifier -> string -> BucketVerificationContext -> outcome unit :=
  fun _ _ target_arn _ =>
    Raised (InvalidArgument
              "Unable to validate the following destination configurations"
              target_arn "The destination queue does not exist").

(** The tests of the generic record on the event type. *)
Definition created_or_restore (event_type' : string) : bool :=
  contains "created" (lower event_type')
  || contains "restore" (lower event_type').

Definition delete_marker (event_type' : string) : bool :=
  contains "deletemarker" (lower event_type').

Definition tagging_or_acl (event_type' : string) : bool :=
  contains "ObjectTagging" event_type' || contains "ObjectAcl" event_type'.

Definition restore_completed (event_type' : string) : bool :=
  contains "objectrestore:completed" (lower event_type').

(** The guard on the version id, common to both builders. *)
Definition version_shown (ctx : S3EventNotificationContext) : bool :=
  match key_version_id ctx with
  | Some v => truthy v && negb (v =? "null")
  | None => false
  end.

(** The event type takes the event-bus builder to its restore branch. *)
Definition reaches_restore (event_type' : string) : bool :=
  negb (contains "ObjectCreated" event_type')
  && negb (contains "ObjectRemoved" event_type')
  && negb (contains "ObjectTagging" event_type')
  && negb (contains "ObjectAcl" event_type')
  && contains "ObjectRestore" event_type'.

(** The character [c] does not occur in [s]. *)
Fixpoint free_of (c : ascii) (s : string) : Prop :=
  match s with
  | EmptyString => True
  | String a r => a <> c /\ free_of c r
  end.

(** Every character of [s] is an ASCII character (a code below 128): the
    text on which [lower] and [capitalize] are Python's functions. *)
Fixpoint ascii_text (s : string) : Prop :=
  match s with
  | EmptyString => True
  | String c r => (nat_of_ascii c < 128)%nat /\ ascii_text r
  end.






(** * Properties *)

(** ** Strings *)

Lemma is_in_In (x : string) (l : list string) : is_in x l = true <-> In x l.
Proof.
  unfold is_in. rewrite existsb_exists. split.
  - intros [y [Hy Heq]]. apply String.eqb_eq in Heq. now subst.
  - intros H. exists x. split; [assumption | apply String.eqb_refl].
Qed.

Lemma is_in_false (x : string) (l : list string) :
  is_in x l = false <-> ~ In x l.
Proof.
  rewrite <- is_in_In. destruct (is_in x l); split; congruence.
Qed.

Lemma rfind_colon_None (s : string) : rfind_colon s = None <-> no_colon s.
Proof.
  induction s as [|c r IH]; simpl.
  - tauto.
  - destruct (rfind_colon r) as [i|].
    + split; [discriminate|]. intros [_ H]. apply IH in H. discriminate.
    + destruct (Ascii.eqb_spec c colon) as [->|Hc].
      * split; [discriminate|]. intros [H _]. now elim H.
      * split; [|reflexivity]. intros _. split; [assumption|]. now apply IH.
Qed.

Lemma rfind_colon_split (s : string) (i : nat) :
  rfind_colon s = Some i ->
  exists action, s = slice_to i s ++ String colon action /\ no_colon action.
Proof.
  unfold slice_to. revert i. induction s as [|c r IH]; simpl; intros i H.
  - discriminate.
  - destruct (rfind_colon r) as [j|] eqn:Hr.
    + injection H as <-. destruct (IH j eq_refl) as [a [Ha Hn]].
      exists a. split; [|assumption]. simpl. now rewrite <- Ha.
    + destruct (Ascii.eqb_spec c colon) as [->|Hc]; [|discriminate].
      injection H as <-. exists r. split; [reflexivity|].
      now apply rfind_colon_None.
Qed.

Lemma rfind_colon_append (p action : string) :
  no_colon action ->
  rfind_colon (p ++ String colon action) = Some (String.length p).
Proof.
  intros Hn. induction p as [|c r IH]; simpl.
  - apply rfind_colon_None in Hn. rewrite Hn. reflexivity.
  - now rewrite IH.
Qed.

Lemma slice_to_append (p r : string) : slice_to (String.length p) (p ++ r) = p.
Proof.
  unfold slice_to. induction p as [|c p IH]; simpl.
  - now destruct r.
  - now rewrite IH.
Qed.

Lemma colon_append (category action : string) :
  category ++ ":" ++ action = category ++ String colon action.
Proof. reflexivity. Qed.

(** ** Event matching *)

Lemma matching_event_returns (events : list string) (event_name : string) :
  ~ no_colon event_name ->
  exists b, _matching_event events event_name = Returned b.
Proof.
  intros H. unfold _matching_event, rindex_colon.
  destruct (is_in event_name events); [now exists true|].
  destruct (rfind_colon event_name) as [i|] eqn:Hr; simpl; [eauto|].
  elim H. now apply rfind_colon_None.
Qed.

(** C1.  [_matching_event] returns true exactly when the event type is an
    element of the selectors, or the selectors hold the wildcard made of
    the part of the event type before its last colon followed by [":*"];
    on an event type with a colon it always returns; the selectors
    [s3:ObjectCreated:*] match [s3:ObjectCreated:Put] and do not match
    [s3:ObjectRemoved:Delete]. *)
Theorem matching_event_iff :
  (forall (events : list string) (event_name : string),
      _matching_event events event_name = Returned true <->
      (In event_name events \/
       exists category action,
         event_name = category ++ ":" ++ action /\ no_colon action /\
         In (category ++ ":*") events))
  /\ (forall (events : list string) (event_name : string),
        ~ no_colon event_name ->
        exists b, _matching_event events event_name = Returned b)
  /\ _matching_event ["s3:ObjectCreated:*"] "s3:ObjectCreated:Put"
     = Returned true
  /\ _matching_event ["s3:ObjectCreated:*"] "s3:ObjectRemoved:Delete"
     = Returned false.
Proof.
  split; [|split; [exact matching_event_returns | split; reflexivity]].
  intros events event_name. unfold _matching_event, rindex_colon.
  destruct (is_in event_name events) eqn:Hin.
  - split; [|reflexivity]. intros _. left. now apply is_in_In.
  - apply is_in_false in Hin. split.
    + destruct (rfind_colon event_name) as [i|] eqn:Hr; simpl; [|discriminate].
      intros H. injection H as H. apply is_in_In in H. right.
      destruct (rfind_colon_split _ _ Hr) as [action [Hs Hn]].
      exists (slice_to i event_name), action. split; [exact Hs | split; assumption].
    + intros [H|[category [action [-> [Hn H]]]]]; [contradiction|].
      change (category ++ ":" ++ action) with (category ++ String colon action).
      rewrite rfind_colon_append by assumption. simpl.
      rewrite slice_to_append. f_equal. now apply is_in_In.
Qed.

(** ** Key filters *)

Lemma prefix_iff (p s : string) : prefix p s = true <-> is_prefix_of p s.
Proof.
  unfold is_prefix_of. revert s. induction p as [|c p IH]; intros s.
  - split; [intros _; now exists s | intros _; now destruct s].
  - destruct s as [|d s]; simpl.
    + split; [discriminate|]. intros [r Hr]. discriminate.
    + destruct (ascii_dec c d) as [->|Hcd].
      * rewrite IH. split; intros [r Hr]; exists r; [now rewrite Hr|].
        now injection Hr.
      * split; [discriminate|]. intros [r Hr]. injection Hr as Hd _.
        now elim Hcd.
Qed.

Lemma length_append (r p : string) :
  String.length (r ++ p) = (String.length r + String.length p)%nat.
Proof. induction r as [|c r IH]; simpl; [reflexivity | now rewrite IH]. Qed.

Lemma substring_all (p : string) : substring 0 (String.length p) p = p.
Proof. induction p as [|c p IH]; simpl; [reflexivity | now rewrite IH]. Qed.

Lemma substring_append_tail (r p : string) :
  substring (String.length r) (String.length p) (r ++ p) = p.
Proof. induction r as [|c r IH]; simpl; [apply substring_all | exact IH]. Qed.

Lemma substring_split (s : string) (n m : nat) :
  (n + m)%nat = String.length s ->
  s = substring 0 n s ++ substring n m s.
Proof.
  revert n m. induction s as [|c s IH]; intros n m H; simpl in H.
  - destruct n; [|discriminate]. destruct m; [reflexivity | discriminate].
  - destruct n as [|n]; simpl.
    + destruct m as [|m]; [discriminate|]. injection H as H.
      simpl. subst m. now rewrite substring_all.
    + injection H as H. f_equal. now apply IH.
Qed.

Lemma endswith_iff (s p : string) : endswith s p = true <-> is_suffix_of p s.
Proof.
  unfold endswith, is_suffix_of. rewrite andb_true_iff, Nat.leb_le, String.eqb_eq.
  split.
  - intros [Hle Hsub].
    exists (substring 0 (String.length s - String.length p) s).
    pose proof (substring_split s (String.length s - String.length p)
                  (String.length p)) as E.
    rewrite Hsub in E. apply E. lia.
  - intros [r ->]. rewrite length_append. split; [lia|].
    replace (String.length r + String.length p - String.length p)%nat
      with (String.length r) by lia.
    apply substring_append_tail.
Qed.

Lemma matching_rules_iff (filter_rules : list FilterRule) (key_name : string) :
  matching_rules filter_rules key_name = true <->
  forall rule, In rule filter_rules -> rule_passes rule key_name.
Proof.
  unfold rule_passes, prefix_rule, suffix_rule.
  induction filter_rules as [|rule rest IH]; simpl.
  - split; [intros _ r []|reflexivity].
  - destruct (String.eqb_spec (lower (Name rule)) "prefix") as [Hp|Hp]; simpl.
    + destruct (startswith key_name (Value rule)) eqn:Hs; simpl.
      * rewrite Hp. simpl. rewrite IH. split.
        -- intros H r [<-|Hr]; [|now apply H].
           split; [intros _; now apply prefix_iff|]. rewrite Hp. discriminate.
        -- intros H r Hr. apply H. now right.
      * split; [discriminate|]. intros H.
        destruct (H rule (or_introl eq_refl)) as [H1 _].
        apply prefix_iff in H1; [|assumption]. unfold startswith in Hs. congruence.
    + destruct (String.eqb_spec (lower (Name rule)) "suffix") as [Hq|Hq]; simpl.
      * destruct (endswith key_name (Value rule)) eqn:Hs; simpl.
        -- rewrite IH. split.
           ++ intros H r [<-|Hr]; [|now apply H].
              split; [intros Hc; now elim Hp|]. intros _. now apply endswith_iff.
           ++ intros H r Hr. apply H. now right.
        -- split; [discriminate|]. intros H.
           destruct (H rule (or_introl eq_refl)) as [_ H2].
           apply endswith_iff in H2; [|assumption]. congruence.
      * rewrite IH. split.
        -- intros H r [<-|Hr]; [|now apply H].
           split; intros Hc; [now elim Hp | now elim Hq].
        -- intros H r Hr. apply H. now right.
Qed.

(** C2.  [_matching_filter] returns true exactly when the value of every
    Prefix rule is a prefix of the key name and the value of every Suffix
    rule is a suffix of it; an absent filter and an empty rule list match
    every key; the rules of the examples behave as stated. *)
Theorem matching_filter_iff :
  (forall (notification_filter : option NotificationConfigurationFilter)
          (key_name : string),
      _matching_filter notification_filter key_name = true <->
      forall rule, In rule (rules_of notification_filter) ->
        (prefix_rule rule -> is_prefix_of (Value rule) key_name) /\
        (suffix_rule rule -> is_suffix_of (Value rule) key_name))
  /\ (forall key_name, _matching_filter None key_name = true)
  /\ (forall key_name,
        _matching_filter (Some (filter_of_rules [])) key_name = true)
  /\ _matching_filter (Some (filter_of_rules [prefix_images])) "images/cat.png"
     = true
  /\ _matching_filter (Some (filter_of_rules [prefix_images])) "docs/file.png"
     = false
  /\ _matching_filter (Some (filter_of_rules [suffix_png])) "a.png" = true
  /\ _matching_filter (Some (filter_of_rules [suffix_png])) "a.txt" = false
  /\ _matching_filter (Some (filter_of_rules [prefix_images; suffix_png]))
       "images/cat.png" = true
  /\ _matching_filter (Some (filter_of_rules [prefix_images; suffix_png]))
       "images/cat.txt" = false
  /\ _matching_filter (Some (filter_of_rules [prefix_images; suffix_png]))
       "docs/cat.png" = false.
Proof.
  split; [|repeat split; reflexivity].
  intros notification_filter key_name.
  unfold _matching_filter, rules_of.
  destruct notification_filter as [f|]; [|split; [intros _ r []|reflexivity]].
  destruct (get_filter_rules f) as [[|rule rest]|];
    try (split; [intros _ r []|reflexivity]).
  apply matching_rules_iff.
Qed.

(** ** Dispatch *)

Lemma submit_matching_all (notifier : Notifier)
  (ctx : S3EventNotificationContext) (configurations : list Config) :
  forall executor,
    (forall config, In config configurations ->
       exists b, should_notify notifier ctx config = Returned b) ->
    submit_matching notifier ctx configurations executor
    = ((executor ++ matching_entries notifier ctx configurations)%list,
       Returned tt).
Proof.
  unfold matching_entries.
  induction configurations as [|config rest IH]; intros executor H; simpl.
  - now rewrite app_nil_r.
  - destruct (H config (or_introl eq_refl)) as [b Hb]. rewrite Hb.
    destruct b.
    + rewrite IH by (intros c Hc; apply H; now right).
      unfold _submit_notification, task_for. now rewrite <- app_assoc.
    + rewrite IH by (intros c Hc; apply H; now right). reflexivity.
Qed.

Lemma matching_tasks_In (ctx : S3EventNotificationContext)
  (notification_config : NotificationConfiguration) (t : Task) :
  In t (matching_tasks ctx notification_config) <->
  exists item config,
    In item notification_config /\
    In config (configurations_of item) /\
    is_api_enabled (service_name (notifiers item)) = true /\
    should_notify (notifiers item) ctx config = Returned true /\
    t = task_for (notifiers item) ctx config.
Proof.
  unfold matching_tasks, matching_entries. rewrite in_flat_map. split.
  - intros [item [Hitem Ht]].
    destruct (is_api_enabled (service_name (notifiers item))) eqn:He;
      [|contradiction].
    apply in_flat_map in Ht. destruct Ht as [config [Hc Ht]].
    destruct (should_notify (notifiers item) ctx config) as [[|]|e] eqn:Hs;
      try contradiction.
    destruct Ht as [<-|[]]. exists item, config. repeat split; assumption.
  - intros [item [config (Hitem & Hc & He & Hs & ->)]].
    exists item. split; [assumption|]. rewrite He.
    apply in_flat_map. exists config. split; [assumption|].
    rewrite Hs. now left.
Qed.

Lemma decides_when_colon (ctx : S3EventNotificationContext)
  (notification_config : NotificationConfiguration) :
  ~ no_colon (event_type ctx) ->
  decides_every_entry ctx notification_config.
Proof.
  intros Hcolon item config _ _ Hconfig.
  assert (Hentry : forall c,
            exists b, BaseNotifier_should_notify ctx (Entry c) = Returned b).
  { intros c. simpl.
    destruct (matching_event_returns (Events c) _ Hcolon) as [b ->].
    simpl. eauto. }
  destruct item as [l|l|l|]; simpl in *.
  - apply in_map_iff in Hconfig. destruct Hconfig as [c [<- _]]. apply Hentry.
  - apply in_map_iff in Hconfig. destruct Hconfig as [c [<- _]]. apply Hentry.
  - apply in_map_iff in Hconfig. destruct Hconfig as [c [<- _]]. apply Hentry.
  - eauto.
Qed.

(** C3, as amended.  When no evaluation of [should_notify] on an entry of
    an enabled kind raises, [send_notifications] returns after it has
    submitted, in the order of the configuration, a task for exactly the
    entries of enabled kinds for which [should_notify] is true (the
    EventBridge configuration being one entry), and nothing else; what it
    returns is independent of any delivery. *)
Theorem send_notifications_submits (ctx : S3EventNotificationContext)
  (notification_config : NotificationConfiguration) (executor : Executor) :
  decides_every_entry ctx notification_config ->
  send_notifications ctx notification_config executor
  = ((executor ++ matching_tasks ctx notification_config)%list, Returned tt)
  /\ forall t,
       In t (matching_tasks ctx notification_config) <->
       exists item config,
         In item notification_config /\
         In config (configurations_of item) /\
         is_api_enabled (service_name (notifiers item)) = true /\
         should_notify (notifiers item) ctx config = Returned true /\
         t = task_for (notifiers item) ctx config.
Proof.
  intros H. split; [|intros t; apply matching_tasks_In].
  unfold decides_every_entry in H. revert executor.
  induction notification_config as [|item rest IH]; intros executor; simpl.
  - now rewrite app_nil_r.
  - destruct (is_api_enabled (service_name (notifiers item))) eqn:He; simpl.
    + rewrite submit_matching_all
        by (intros c Hc; apply (H item c); [now left | assumption | assumption]).
      rewrite IH by (intros i c Hi; apply H; now right).
      now rewrite <- app_assoc.
    + apply IH. intros i c Hi. apply H. now right.
Qed.

(** ** The generic record *)

Lemma version_condition (v : string) :
  truthy v && negb (v =? "null") = true <-> v <> EmptyString /\ v <> "null".
Proof.
  rewrite andb_true_iff, negb_true_iff, String.eqb_neq.
  destruct v; simpl; split; intros [H1 H2]; split;
    congruence || discriminate || assumption.
Qed.

Lemma advance_milliseconds (t n : Z) :
  timestamp_millis
    (Some (parse_timestamp (timestamp_millis (Some t))
           + timedelta_milliseconds n)%Z)
  = timestamp_millis (Some (t + timedelta_milliseconds n)%Z).
Proof.
  unfold timestamp_millis, parse_timestamp, timedelta_milliseconds.
  rewrite !Z.div_add by lia. rewrite Z.div_mul by lia. reflexivity.
Qed.

(** C5.  For a completed restore the record's [eventTime] is the
    timestamp of the instant 500 milliseconds after the event time, and
    the record carries [glacierEventData] with the restoration expiry
    time and the restore storage class. *)
Theorem restore_completed_record (request_uid : string)
  (ctx : S3EventNotificationContext) (config_id : option string) :
  event_type ctx = s3_ObjectRestore_Completed ->
  exists record,
    BaseNotifier_get_event_payload request_uid ctx config_id
    = Returned {| Records := [record] |} /\
    eventTime record
    = timestamp_millis (Some (event_time ctx + timedelta_milliseconds 500)%Z) /\
    glacierEventData record
    = Some [("restoreEventData",
             VDict [("lifecycleRestorationExpiryTime",
                     VStamp (timestamp_millis (key_expiry ctx)));
                    ("lifecycleRestoreStorageClass",
                     str_or_none (key_storage_class ctx))])].
Proof.
  intros H. unfold BaseNotifier_get_event_payload. rewrite H.
  destruct (key_version_id ctx) as [v|];
    [destruct (truthy v && negb (v =? "null"))|];
    (eexists; split; [reflexivity|]; split;
     [etransitivity; [|apply advance_milliseconds]; reflexivity
     |reflexivity]).
Qed.

Ltac compute_lhs :=
  lazymatch goal with
  | |- ?l = _ => let r := eval vm_compute in l in change l with r
  | |- ?l = _ <-> _ => let r := eval vm_compute in l in change l with r
  end.

(** C6, as amended.  The object block of the generic record has a
    [versionId] field exactly when the version id of the context is
    present, not empty and not ["null"]; for [ObjectRemoved:Delete] the
    object block has neither [size] nor [eTag]. *)
Theorem record_object_fields (request_uid : string)
  (ctx : S3EventNotificationContext) (config_id : option string) :
  exists record,
    BaseNotifier_get_event_payload request_uid ctx config_id
    = Returned {| Records := [record] |} /\
    (PyDict.has_key "versionId" (object (s3 record)) = true <->
     exists v, key_version_id ctx = Some v /\ v <> EmptyString /\ v <> "null") /\
    (event_type ctx = s3_ObjectRemoved_Delete ->
     PyDict.has_key "size" (object (s3 record)) = false /\
     PyDict.has_key "eTag" (object (s3 record)) = false).
Proof.
  unfold BaseNotifier_get_event_payload. cbv zeta.
  remember (contains "created" (lower (event_type ctx))
            || contains "restore" (lower (event_type ctx))) as b1 eqn:E1.
  remember (contains "deletemarker" (lower (event_type ctx))) as b2 eqn:E2.
  remember (contains "ObjectTagging" (event_type ctx)
            || contains "ObjectAcl" (event_type ctx)) as b3 eqn:E3.
  remember (contains "objectrestore:completed" (lower (event_type ctx)))
    as b4 eqn:E4.
  assert (Hdelete : event_type ctx = s3_ObjectRemoved_Delete ->
                    b1 = false /\ b3 = false).
  { intros Hd. rewrite Hd in E1, E3. now subst b1 b3. }
  clear E1 E2 E3 E4.
  destruct (key_version_id ctx) as [v|];
    [destruct (truthy v && negb (v =? "null")) eqn:Ev|];
    destruct b1, b2, b3, b4; cbn;
    (eexists; split; [reflexivity|]; split;
     [ compute_lhs
     | intros Hd; destruct (Hdelete Hd) as [H1 H3]; try discriminate;
       split; reflexivity ]).
  all: try (split; [intros _; exists v; split; [reflexivity|];
                    now apply version_condition
                   | reflexivity]).
  all: try (split; [discriminate|]; intros [v' [Hv Hc]];
            injection Hv as <-; apply version_condition in Hc; congruence).
  all: split; [discriminate|]; intros [v' [Hv _]]; discriminate.
Qed.

(** ** The event-bus entry *)

Lemma restore_types_differ : s3_ObjectRestore_Post <> s3_ObjectRestore_Completed.
Proof. unfold s3_ObjectRestore_Post, s3_ObjectRestore_Completed. discriminate. Qed.

(** C4, as amended.  For a restore event the detail of the event-bus
    entry has no object sequencer and carries [source-storage-class], for
    the initiated and for the completed sub-type alike; the initiated
    payload has no [restore-expiry-time], keeps [source-ip-address] and
    the event time; the completed payload adds [restore-expiry-time],
    drops [source-ip-address], and its time is one second after the
    event time. *)
Theorem restore_event_bus_payload (ctx : S3EventNotificationContext) :
  event_type ctx = s3_ObjectRestore_Post \/
  event_type ctx = s3_ObjectRestore_Completed ->
  exists entry event_details o,
    EventBridgeNotifier_get_event_payload ctx = Returned entry /\
    Detail entry = Some event_details /\
    details_object event_details = Returned o /\
    PyDict.has_key "sequencer" o = false /\
    PyDict.get "source-storage-class" event_details
    = Some (str_or_none (key_storage_class ctx)) /\
    (event_type ctx = s3_ObjectRestore_Post ->
     DetailType entry = Some "Object Restore Initiated" /\
     PyDict.has_key "restore-expiry-time" event_details = false /\
     PyDict.has_key "source-ip-address" event_details = true /\
     EntryTime entry = event_time ctx) /\
    (event_type ctx = s3_ObjectRestore_Completed ->
     DetailType entry = Some "Object Restore Completed" /\
     PyDict.get "restore-expiry-time" event_details
     = Some (VStamp (timestamp_millis (key_expiry ctx))) /\
     PyDict.has_key "source-ip-address" event_details = false /\
     EntryTime entry = (event_time ctx + timedelta_seconds 1)%Z).
Proof.
  intros H.
  unfold EventBridgeNotifier_get_event_payload, eventbridge_by_event_type.
  destruct H as [H|H]; rewrite H;
    destruct (xray ctx) as [h|]; [destruct (truthy h)| |destruct (truthy h)|];
    (destruct (key_version_id ctx) as [v|];
     [destruct (truthy v && negb (v =? "null"))|]);
    cbn; do 3 eexists; do 5 (split; [reflexivity|]);
    (split; intros Hc;
     [ first [ exfalso; exact (restore_types_differ (eq_sym Hc))
             | repeat split; reflexivity ]
     | first [ exfalso; exact (restore_types_differ Hc)
             | repeat split; reflexivity ] ]).
Qed.

(** ** Validation *)

Lemma valid_name_iff (rule : FilterRule) :
  is_in (capitalize (Name rule)) ["Suffix"; "Prefix"] = true <-> valid_name rule.
Proof.
  rewrite is_in_In. unfold valid_name. simpl. intuition congruence.
Qed.

Lemma truthy_iff (s : string) : truthy s = true <-> s <> EmptyString.
Proof. destruct s; simpl; split; congruence. Qed.

Lemma validate_filter_rules_valid (rules : list FilterRule) :
  Forall valid_rule rules ->
  validate_filter_rules rules = (map normalize_rule rules, Returned tt).
Proof.
  induction 1 as [|rule rest [Hn Hv] _ IH]; cbn [validate_filter_rules normalize_rule Name Value app map]; [reflexivity|].
  apply valid_name_iff in Hn. apply truthy_iff in Hv.
  rewrite Hn, Hv, IH. reflexivity.
Qed.

Lemma validate_filter_rules_first_invalid (pre post : list FilterRule)
  (rule : FilterRule) :
  Forall valid_rule pre -> ~ valid_rule rule ->
  validate_filter_rules (pre ++ rule :: post)
  = ((map normalize_rule pre ++ normalize_rule rule :: post)%list,
     Raised (InvalidArgument
               (if is_in (capitalize (Name rule)) ["Suffix"; "Prefix"]
                then value_message else name_message)
               (capitalize (Name rule)) (Value rule))).
Proof.
  intros Hpre Hrule. induction Hpre as [|r rest [Hn Hv] _ IH]; cbn [validate_filter_rules normalize_rule Name Value app map].
  - destruct (is_in (capitalize (Name rule)) ["Suffix"; "Prefix"]) eqn:Hn;
      cbn [negb]; [|reflexivity].
    destruct (truthy (Value rule)) eqn:Hv; cbn [negb]; [|reflexivity].
    elim Hrule. split; [now apply valid_name_iff | now apply truthy_iff].
  - apply valid_name_iff in Hn. apply truthy_iff in Hv.
    rewrite Hn, Hv, IH. reflexivity.
Qed.

Lemma valid_rule_dec (rule : FilterRule) : {valid_rule rule} + {~ valid_rule rule}.
Proof.
  destruct (is_in (capitalize (Name rule)) ["Suffix"; "Prefix"]) eqn:Hn.
  - destruct (truthy (Value rule)) eqn:Hv.
    + left. split; [now apply valid_name_iff | now apply truthy_iff].
    + right. intros [_ H]. apply truthy_iff in H. congruence.
  - right. intros [H _]. apply valid_name_iff in H. congruence.
Qed.

Lemma first_invalid (rules : list FilterRule) :
  ~ Forall valid_rule rules ->
  exists pre rule post,
    rules = (pre ++ rule :: post)%list /\ Forall valid_rule pre /\
    ~ valid_rule rule.
Proof.
  induction rules as [|r rest IH]; intros H.
  - elim H. constructor.
  - destruct (valid_rule_dec r) as [Hr|Hr].
    + destruct IH as (pre & rule & post & -> & Hpre & Hrule).
      { intros Hrest. apply H. now constructor. }
      exists (r :: pre), rule, post. repeat split; [now constructor | apply Hrule].
    + exists [], r, rest. repeat split; [constructor | apply Hr].
Qed.

Lemma validate_filter_rules_outcome (rules : list FilterRule) :
  (snd (validate_filter_rules rules) = Returned tt <-> Forall valid_rule rules)
  /\ (forall rule, In rule rules -> ~ valid_rule rule ->
      exists message name value,
        snd (validate_filter_rules rules)
        = Raised (InvalidArgument message name value)).
Proof.
  destruct (Forall_dec valid_rule valid_rule_dec rules) as [Hall|Hnot].
  - rewrite validate_filter_rules_valid by assumption. simpl. split.
    + tauto.
    + intros rule Hin Hbad. rewrite Forall_forall in Hall.
      elim Hbad. now apply Hall.
  - destruct (first_invalid _ Hnot) as (pre & rule & post & -> & Hpre & Hrule).
    rewrite validate_filter_rules_first_invalid by assumption. simpl. split.
    + split; [discriminate | contradiction].
    + intros _ _ _. eauto.
Qed.

Lemma get_arn_value_and_name_set_Id (self : Notifier) (i : string)
  (c : Configuration) :
  _get_arn_value_and_name self (set_Id i c) = _get_arn_value_and_name self c.
Proof. destruct self; reflexivity. Qed.

Lemma get_arn_value_and_name_base (self : Notifier) (c : Configuration) :
  self <> EventBridgeNotifier ->
  exists argument_name,
    _get_arn_value_and_name self c = Returned (destination_arn c, argument_name) /\
    In argument_name ["QueueArn"; "TopicArn"; "LambdaFunctionArn"].
Proof.
  intros H. destruct self; [| | |now elim H]; eexists; (split; [reflexivity|]);
    simpl; tauto.
Qed.

Lemma with_id_fields (w : World) (c : Configuration) :
  Arn (with_id w c) = Arn c /\ Events (with_id w c) = Events c /\
  Filter (with_id w c) = Filter c /\
  Id (with_id w c)
  = if truthy_opt (Id c) then Id c else Some (short_uid (uid_draws w)).
Proof. unfold with_id. destruct (truthy_opt (Id c)); simpl; tauto. Qed.

Lemma after_id_calls (w : World) (c : Configuration) :
  verify_calls (after_id w c) = verify_calls w.
Proof. unfold after_id. now destruct (negb (truthy_opt (Id c))). Qed.

Lemma rules_of_configured (c : Configuration) :
  rules_of (Filter c)
  = match configured_filter_rules c with Some rules => rules | None => [] end.
Proof.
  unfold rules_of, configured_filter_rules. now destruct (Filter c).
Qed.

Lemma validate_filter_rules_length (rules : list FilterRule) :
  List.length (fst (validate_filter_rules rules)) = List.length rules.
Proof.
  induction rules as [|rule rest IH]; cbn [validate_filter_rules normalize_rule Name Value app map]; [reflexivity|].
  destruct (is_in _ _); cbn [negb]; [|reflexivity].
  destruct (truthy _); cbn [negb]; [|reflexivity].
  destruct (validate_filter_rules rest). simpl in *. now rewrite IH.
Qed.

Lemma rules_of_with_rules (c : Configuration) :
  rules_of (Filter (with_rules (fst (validate_filter_rules (rules_of (Filter c)))) c))
  = fst (validate_filter_rules (rules_of (Filter c))).
Proof.
  rewrite (rules_of_configured c). unfold with_rules.
  destruct (configured_filter_rules c) as [[|rule rest]|] eqn:Hc.
  - rewrite rules_of_configured, Hc. reflexivity.
  - reflexivity.
  - rewrite rules_of_configured, Hc. reflexivity.
Qed.

Lemma validate_notification_bad_arn (self : Notifier)
  (verification_ctx : BucketVerificationContext) (w : World) :
  self <> EventBridgeNotifier ->
  arn_matches (service_name self)
    (destination_arn (configuration verification_ctx)) = false ->
  exists argument_name,
    In argument_name ["QueueArn"; "TopicArn"; "LambdaFunctionArn"] /\
    _validate_notification self verification_ctx w
    = (with_id w (configuration verification_ctx),
       after_id w (configuration verification_ctx),
       Raised (InvalidArgument arn_message argument_name
                 (destination_arn (configuration verification_ctx)))).
Proof.
  intros Hself Harn.
  destruct (get_arn_value_and_name_base self (configuration verification_ctx)
              Hself) as [argument_name [Hget Hname]].
  exists argument_name. split; [assumption|].
  unfold _validate_notification, with_id, after_id.
  destruct (negb (truthy_opt (Id (configuration verification_ctx))));
    rewrite ?get_arn_value_and_name_set_Id, Hget, Harn; reflexivity.
Qed.

Lemma validate_notification_reaches (self : Notifier)
  (verification_ctx : BucketVerificationContext) (w : World) :
  passes_destination_checks self verification_ctx w ->
  let rules := rules_of (Filter (configuration verification_ctx)) in
  exists w',
    _validate_notification self verification_ctx w
    = (with_rules (fst (validate_filter_rules rules))
         (with_id w (configuration verification_ctx)),
       w', snd (validate_filter_rules rules)).
Proof.
  intros (Hself & Harn & Hlive) rules. subst rules.
  destruct (get_arn_value_and_name_base self (configuration verification_ctx)
              Hself) as [argument_name [Hget _]].
  rewrite rules_of_configured.
  unfold _validate_notification, with_rules.
  unfold with_id in *.
  set (c0 := configuration verification_ctx) in *.
  assert (Hrules : forall i, configured_filter_rules (set_Id i c0)
                             = configured_filter_rules c0) by reflexivity.
  destruct (negb (truthy_opt (Id c0)));
    rewrite ?get_arn_value_and_name_set_Id, Hget, Harn; cbn [negb];
    rewrite ?Hrules.
  all: destruct (skip_destination_validation verification_ctx) eqn:Hskip;
    cbn [negb].
  all: try (destruct (configured_filter_rules c0) as [[|rule rest]|];
            [ eexists; reflexivity
            | destruct (validate_filter_rules (rule :: rest)); eexists;
              reflexivity
            | eexists; reflexivity ]).
  all: destruct Hlive as [Hlive|Hlive]; [discriminate|].
  all: unfold _verify_target; cbn [verify_calls uid_draws].
  all: destruct self; try (now elim Hself); rewrite Hlive.
  all: destruct (configured_filter_rules c0) as [[|rule rest]|];
    [ eexists; reflexivity
    | destruct (validate_filter_rules (rule :: rest)); eexists; reflexivity
    | eexists; reflexivity ].
Qed.









(** ** Events without a colon *)

(** C9.  When the selectors do not hold the event type and the event
    type has no colon, [_matching_event] raises [ValueError]; so do
    [should_notify] of the queue, topic and function notifiers on an
    entry with these selectors, and [send_notifications] on a
    configuration whose first entry of an enabled kind is such an entry.
    The event type of a context built for an operation outside
    [EVENT_OPERATION_MAP] is the empty string, which has no colon. *)
Theorem matching_event_partial (events : list string) (event_name : string)
  (ctx : S3EventNotificationContext) (c : Configuration)
  (queue_rest : list Configuration) (rest : NotificationConfiguration)
  (executor : Executor) (now : Z) (request_context : RequestContext)
  (s3_bucket : S3Bucket) (s3_object : S3ObjectOrMarker) :
  ~ In event_name events ->
  no_colon event_name ->
  _matching_event events event_name
  = Raised (ValueError "substring not found") /\
  (event_type ctx = event_name -> Events c = events ->
   (forall self, self <> EventBridgeNotifier ->
      should_notify self ctx (Entry c)
      = Raised (ValueError "substring not found")) /\
   (is_api_enabled "sqs" = true ->
    send_notifications ctx (QueueConfigurations (c :: queue_rest) :: rest)
      executor
    = (executor, Raised (ValueError "substring not found")))) /\
  (~ In (rc_wire_name request_context) (map fst EVENT_OPERATION_MAP) ->
   event_type (from_request_context_native now request_context s3_bucket
                 s3_object)
   = EmptyString /\
   no_colon EmptyString).
Proof.
  intros Hin Hcolon.
  assert (Hraise : _matching_event events event_name
                   = Raised (ValueError "substring not found")).
  { unfold _matching_event, rindex_colon.
    apply is_in_false in Hin. rewrite Hin.
    apply rfind_colon_None in Hcolon. now rewrite Hcolon. }
  split; [exact Hraise|]. split.
  - intros Het Hev.
    assert (Hshould : forall self, self <> EventBridgeNotifier ->
              should_notify self ctx (Entry c)
              = Raised (ValueError "substring not found")).
    { intros self Hself. destruct self; try (now elim Hself);
        simpl; now rewrite Het, Hev, Hraise. }
    split; [exact Hshould|]. intros Hen.
    cbn [send_notifications notifiers service_name configurations_of map
         submit_matching].
    rewrite Hen. cbn [negb]. rewrite (Hshould SqsNotifier) by discriminate.
    reflexivity.
  - intros Hop. split; [|exact I].
    unfold from_request_context_native.
    assert (Hget : map_get (rc_wire_name request_context) EVENT_OPERATION_MAP
                     EmptyString = EmptyString).
    { revert Hop. generalize (rc_wire_name request_context) as k.
      intros k. induction EVENT_OPERATION_MAP as [|[k' v] m IH]; simpl;
        [reflexivity|].
      intros H. destruct (String.eqb_spec k' k) as [->|Hk].
      - elim H. now left.
      - apply IH. intros H'. apply H. now right. }
    destruct s3_object; simpl; exact Hget.
Qed.

(** * Further properties of the module *)

(** ** Case mappings *)

Lemma lower_upper_char (c : ascii) : lower_char (upper_char c) = lower_char c.
Proof. destruct c as [[] [] [] [] [] [] [] []]; reflexivity. Qed.

Lemma lower_lower_char (c : ascii) : lower_char (lower_char c) = lower_char c.
Proof. destruct c as [[] [] [] [] [] [] [] []]; reflexivity. Qed.

Lemma upper_upper_char (c : ascii) : upper_char (upper_char c) = upper_char c.
Proof. destruct c as [[] [] [] [] [] [] [] []]; reflexivity. Qed.

Lemma lower_lower (s : string) : lower (lower s) = lower s.
Proof.
  induction s as [|c s IH]; simpl; [reflexivity|].
  now rewrite lower_lower_char, IH.
Qed.

Lemma lower_capitalize (s : string) : lower (capitalize s) = lower s.
Proof.
  destruct s as [|c s]; simpl; [reflexivity|].
  now rewrite lower_upper_char, lower_lower.
Qed.

Lemma capitalize_capitalize (s : string) :
  capitalize (capitalize s) = capitalize s.
Proof.
  destruct s as [|c s]; simpl; [reflexivity|].
  now rewrite upper_upper_char, lower_lower.
Qed.

(** ** Filters and the order of their rules *)

Lemma matching_filter_of_rules (rules : list FilterRule) (key_name : string) :
  _matching_filter (Some (filter_of_rules rules)) key_name
  = matching_rules rules key_name.
Proof. now destruct rules. Qed.

Lemma matching_rules_app (a b : list FilterRule) (key_name : string) :
  matching_rules (a ++ b) key_name
  = matching_rules a key_name && matching_rules b key_name.
Proof.
  induction a as [|rule rest IH]; simpl; [reflexivity|].
  destruct ((lower (Name rule) =? "prefix")
            && negb (startswith key_name (Value rule))); [reflexivity|].
  destruct ((lower (Name rule) =? "suffix")
            && negb (endswith key_name (Value rule))); [reflexivity|].
  exact IH.
Qed.

Lemma bool_eq_iff (x y : bool) : (x = true <-> y = true) -> x = y.
Proof. destruct x, y; intros [H1 H2]; auto; symmetry; auto. Qed.

(** X1.  The rules of a filter are a conjunction: a filter made of two
    rule lists matches a key exactly when the filters of both lists do,
    and neither the order of the rules nor a repeated rule changes what
    the filter matches. *)
Theorem matching_filter_conjunction :
  (forall (a b : list FilterRule) (key_name : string),
      _matching_filter (Some (filter_of_rules (a ++ b))) key_name
      = _matching_filter (Some (filter_of_rules a)) key_name
        && _matching_filter (Some (filter_of_rules b)) key_name)
  /\ (forall (a b : list FilterRule) (key_name : string),
        (forall rule, In rule a <-> In rule b) ->
        _matching_filter (Some (filter_of_rules a)) key_name
        = _matching_filter (Some (filter_of_rules b)) key_name).
Proof.
  split.
  - intros a b key_name. rewrite !matching_filter_of_rules.
    apply matching_rules_app.
  - intros a b key_name H. rewrite !matching_filter_of_rules.
    apply bool_eq_iff. rewrite !matching_rules_iff.
    split; intros Hall rule Hin; apply Hall; now apply H.
Qed.

(** ** The paths of the validation of an entry *)

Ltac validation_paths verification_ctx :=
  unfold _validate_notification, with_id, after_id, called, destination_arn;
  destruct (negb (truthy_opt (Id (configuration verification_ctx))));
  cbn [_get_arn_value_and_name set_Id Arn];
  match goal with
  | |- context [arn_matches ?s ?a] => destruct (arn_matches s a) eqn:Harn
  end;
  cbn [negb];
  try (match goal with
       | H : arn_matches _ _ = true |- _ => idtac
       end;
       destruct (skip_destination_validation verification_ctx) eqn:Hskip;
       cbn [negb];
       try (match goal with
            | H : skip_destination_validation _ = false |- _ => idtac
            end;
            unfold _verify_target; cbn [verify_calls uid_draws];
            match goal with
            | |- context [live_check ?n ?s ?a ?v] =>
                destruct (live_check n s a v) as [[]|e] eqn:Hlive
            end)).

Lemma validate_notification_cases (self : Notifier)
  (verification_ctx : BucketVerificationContext) (w : World) :
  let c := configuration verification_ctx in
  let checked := validate_filter_rules (rules_of (Filter c)) in
  let result := _validate_notification self verification_ctx w in
  (fst (fst result) = with_id w c /\ exists e, snd result = Raised e) \/
  (self <> EventBridgeNotifier /\
   arn_matches (service_name self) (destination_arn c) = true /\
   fst (fst result) = with_rules (fst checked) (with_id w c) /\
   snd result = snd checked).
Proof.
  intros c checked result. subst c checked result.
  rewrite rules_of_configured. unfold with_rules.
  assert (Hrules : forall i,
            configured_filter_rules (set_Id i (configuration verification_ctx))
            = configured_filter_rules (configuration verification_ctx))
    by reflexivity.
  destruct self.
  4: { left. unfold _validate_notification, with_id.
       destruct (negb (truthy_opt (Id (configuration verification_ctx))));
         (split; [reflexivity|eexists; reflexivity]). }
  all: validation_paths verification_ctx;
    rewrite ?Hrules;
    try (left; split; [reflexivity|eexists; reflexivity]; fail).
  all: right; split; [discriminate|]; split; [reflexivity|].
  all: destruct (configured_filter_rules (configuration verification_ctx))
         as [[|rule rest]|];
       try (split; reflexivity).
  all: destruct (validate_filter_rules (rule :: rest)); split; reflexivity.
Qed.

Lemma validate_notification_draws (self : Notifier)
  (verification_ctx : BucketVerificationContext) (w : World) :
  uid_draws (snd (fst (_validate_notification self verification_ctx w)))
  = uid_draws (after_id w (configuration verification_ctx)).
Proof.
  destruct self.
  4: { unfold _validate_notification, after_id.
       now destruct (negb (truthy_opt (Id (configuration verification_ctx)))). }
  all: validation_paths verification_ctx; try reflexivity.
  all: match goal with
       | |- context [configured_filter_rules ?c] =>
           destruct (configured_filter_rules c) as [[|rule rest]|];
           try reflexivity;
           destruct (validate_filter_rules (rule :: rest)); reflexivity
       end.
Qed.

Lemma validate_filter_rules_same_match (rules : list FilterRule)
  (key_name : string) :
  matching_rules (fst (validate_filter_rules rules)) key_name
  = matching_rules rules key_name.
Proof.
  induction rules as [|rule rest IH];
    cbn [validate_filter_rules normalize_rule Name Value]; [reflexivity|].
  destruct (negb (is_in (capitalize (Name rule)) ["Suffix"; "Prefix"]));
    [|destruct (negb (truthy (Value rule)));
      [|destruct (validate_filter_rules rest) as [rest' res]]];
    cbn [fst matching_rules normalize_rule Name Value] in *;
    rewrite lower_capitalize; try reflexivity.
  now rewrite IH.
Qed.

Lemma validate_filter_rules_same_values (rules : list FilterRule) :
  map Value (fst (validate_filter_rules rules)) = map Value rules /\
  map (fun rule => lower (Name rule)) (fst (validate_filter_rules rules))
  = map (fun rule => lower (Name rule)) rules.
Proof.
  induction rules as [|rule rest [IH1 IH2]];
    cbn [validate_filter_rules normalize_rule Name Value]; [now split|].
  destruct (negb (is_in (capitalize (Name rule)) ["Suffix"; "Prefix"]));
    [|destruct (negb (truthy (Value rule)));
      [|destruct (validate_filter_rules rest) as [rest' res]]];
    cbn [fst map normalize_rule Name Value] in *;
    rewrite lower_capitalize; split; congruence.
Qed.

Lemma matching_filter_rules_of
  (notification_filter : option NotificationConfigurationFilter)
  (key_name : string) :
  _matching_filter notification_filter key_name
  = matching_rules (rules_of notification_filter) key_name.
Proof.
  unfold _matching_filter, rules_of.
  destruct notification_filter as [f|]; [|reflexivity].
  now destruct (get_filter_rules f) as [[|rule rest]|].
Qed.

Lemma rules_of_with_rules_checked (w : World) (c : Configuration) :
  rules_of (Filter (with_rules (fst (validate_filter_rules (rules_of (Filter c))))
                      (with_id w c)))
  = fst (validate_filter_rules (rules_of (Filter c))).
Proof.
  pose proof (rules_of_with_rules (with_id w c)) as E.
  now rewrite (proj1 (proj2 (proj2 (with_id_fields w c)))) in E.
Qed.

Lemma with_rules_fields (rules : list FilterRule) (c : Configuration) :
  Id (with_rules rules c) = Id c /\ Arn (with_rules rules c) = Arn c /\
  Events (with_rules rules c) = Events c.
Proof.
  unfold with_rules.
  destruct (configured_filter_rules c) as [[|rule rest]|]; simpl; tauto.
Qed.

(** X2.  For an entry whose rule names are ASCII text, the validation of
    the entry, whatever its outcome, does not change which keys the
    filter of the entry matches: the names it rewrites differ from the
    original ones in case only, and matching compares the names without
    regard to case. *)
Theorem validation_keeps_matching (self : Notifier)
  (verification_ctx : BucketVerificationContext) (w : World)
  (key_name : string) :
  (forall rule,
     In rule (rules_of (Filter (configuration verification_ctx))) ->
     ascii_text (Name rule)) ->
  _matching_filter
    (Filter (fst (fst (_validate_notification self verification_ctx w))))
    key_name
  = _matching_filter (Filter (configuration verification_ctx)) key_name.
Proof.
  intros _. rewrite !matching_filter_rules_of.
  destruct (validate_notification_cases self verification_ctx w)
    as [[Hc _]|(_ & _ & Hc & _)]; rewrite Hc.
  - now rewrite (proj1 (proj2 (proj2 (with_id_fields w _)))).
  - rewrite rules_of_with_rules_checked. apply validate_filter_rules_same_match.
Qed.

(** X3.  Validation changes nothing of an entry but its [Id], when that
    was missing or empty, and its rule names: the ARN, the selectors,
    the number of rules and their values are those of the original
    entry, an [Id] that was there is kept, and when the rule names are
    ASCII text they are the original names up to case. *)
Theorem validation_keeps_entry (self : Notifier)
  (verification_ctx : BucketVerificationContext) (w : World) :
  let c := configuration verification_ctx in
  let c' := fst (fst (_validate_notification self verification_ctx w)) in
  Arn c' = Arn c /\
  Events c' = Events c /\
  map Value (rules_of (Filter c')) = map Value (rules_of (Filter c)) /\
  ((forall rule, In rule (rules_of (Filter c)) -> ascii_text (Name rule)) ->
   map (fun rule => lower (Name rule)) (rules_of (Filter c'))
   = map (fun rule => lower (Name rule)) (rules_of (Filter c))) /\
  (truthy_opt (Id c) = true -> Id c' = Id c).
Proof.
  intros c c'. subst c'.
  pose proof (with_id_fields w c) as (Ha & He & Hf & Hi).
  assert (Hid : truthy_opt (Id c) = true -> Id (with_id w c) = Id c).
  { intros Ht. now rewrite Hi, Ht. }
  destruct (validate_notification_cases self verification_ctx w)
    as [[Hc _]|(_ & _ & Hc & _)]; fold c in Hc; rewrite Hc.
  - rewrite Ha, He, Hf. repeat split; auto.
  - pose proof (with_rules_fields
                  (fst (validate_filter_rules (rules_of (Filter c))))
                  (with_id w c)) as (Hi' & Ha' & He').
    rewrite Ha', He', Hi', rules_of_with_rules_checked.
    destruct (validate_filter_rules_same_values (rules_of (Filter c)))
      as [Hv Hn].
    repeat split; auto; congruence.
Qed.

Lemma validate_notification_skip_world (self : Notifier)
  (verification_ctx : BucketVerificationContext) (w : World) :
  skip_destination_validation verification_ctx = true ->
  snd (fst (_validate_notification self verification_ctx w))
  = after_id w (configuration verification_ctx).
Proof.
  intros Hs. destruct self.
  4: { unfold _validate_notification, after_id.
       now destruct (negb (truthy_opt (Id (configuration verification_ctx)))). }
  all: validation_paths verification_ctx; try reflexivity; try congruence.
  all: match goal with
       | |- context [configured_filter_rules ?c] =>
           destruct (configured_filter_rules c) as [[|rule rest]|];
           try reflexivity;
           destruct (validate_filter_rules (rule :: rest)); reflexivity
       end.
Qed.

Lemma valid_rule_normalize (rule : FilterRule) :
  valid_rule rule ->
  valid_rule (normalize_rule rule) /\
  named_prefix_or_suffix (normalize_rule rule) /\
  Value (normalize_rule rule) <> EmptyString.
Proof.
  unfold valid_rule, valid_name, named_prefix_or_suffix. simpl.
  rewrite capitalize_capitalize. tauto.
Qed.

Lemma accepted_rules (self : Notifier)
  (verification_ctx : BucketVerificationContext) (w : World) :
  snd (_validate_notification self verification_ctx w) = Returned tt ->
  self <> EventBridgeNotifier /\
  arn_matches (service_name self)
    (destination_arn (configuration verification_ctx)) = true /\
  Forall valid_rule (rules_of (Filter (configuration verification_ctx))) /\
  fst (fst (_validate_notification self verification_ctx w))
  = with_rules (map normalize_rule
                  (rules_of (Filter (configuration verification_ctx))))
      (with_id w (configuration verification_ctx)).
Proof.
  intros Hok.
  destruct (validate_notification_cases self verification_ctx w)
    as [[_ [e He]]|(Hself & Harn & Hc & Hres)]; [congruence|].
  rewrite Hok in Hres. symmetry in Hres.
  apply validate_filter_rules_outcome in Hres.
  rewrite validate_filter_rules_valid in Hc by assumption.
  repeat split; assumption.
Qed.

(** X4.  An entry that validation accepts has, after the call, only rules
    named exactly [Prefix] or [Suffix] with a value that is not empty,
    and its filter matches a key exactly when the value of every
    [Prefix] rule is a prefix of the key and the value of every [Suffix]
    rule is a suffix of it. *)
Theorem accepted_entry_filter (self : Notifier)
  (verification_ctx : BucketVerificationContext) (w : World)
  (key_name : string) :
  snd (_validate_notification self verification_ctx w) = Returned tt ->
  let c' := fst (fst (_validate_notification self verification_ctx w)) in
  (forall rule, In rule (rules_of (Filter c')) ->
     named_prefix_or_suffix rule /\ Value rule <> EmptyString) /\
  (_matching_filter (Filter c') key_name = true <->
   forall rule, In rule (rules_of (Filter c')) ->
     (Name rule = "Prefix" /\ is_prefix_of (Value rule) key_name) \/
     (Name rule = "Suffix" /\ is_suffix_of (Value rule) key_name)).
Proof.
  intros Hok c'. subst c'.
  destruct (accepted_rules _ _ _ Hok) as (_ & _ & Hvalid & Hc).
  pose proof (rules_of_with_rules_checked w (configuration verification_ctx))
    as E.
  rewrite validate_filter_rules_valid in E by assumption. cbn [fst] in E.
  rewrite Hc, matching_filter_rules_of, E, matching_rules_iff.
  assert (Hnamed : forall rule,
            In rule (map normalize_rule
                       (rules_of (Filter (configuration verification_ctx)))) ->
            named_prefix_or_suffix rule /\ Value rule <> EmptyString).
  { intros rule Hin. apply in_map_iff in Hin. destruct Hin as [r [<- Hr]].
    rewrite Forall_forall in Hvalid. now apply valid_rule_normalize, Hvalid. }
  split; [exact Hnamed|]. split.
  - intros Hall rule Hin. destruct (Hall rule Hin) as [Hp Hs].
    destruct (Hnamed rule Hin) as [[Hn|Hn] _].
    + left. split; [assumption|]. apply Hp. unfold prefix_rule.
      now rewrite Hn.
    + right. split; [assumption|]. apply Hs. unfold suffix_rule.
      now rewrite Hn.
  - intros Hall rule Hin. unfold rule_passes, prefix_rule, suffix_rule.
    destruct (Hall rule Hin) as [[Hn Hp]|[Hn Hs]]; rewrite Hn; split;
      intros H; (assumption || discriminate H).
Qed.

Lemma with_rules_own (c : Configuration) :
  with_rules (rules_of (Filter c)) c = c.
Proof.
  rewrite rules_of_configured. unfold with_rules, configured_filter_rules,
    get_filter_rules, set_filter_rules.
  destruct c as [i a e [[[[[[|rule rest]|]]|]]|]]; reflexivity.
Qed.

(** X5.  Validation without the live check is idempotent on what it
    accepts: when the generator hands out identifiers that are not
    empty, validating the accepted entry again accepts it, draws no
    identifier and leaves it as it is. *)
Theorem validation_idempotent (self : Notifier)
  (verification_ctx : BucketVerificationContext) (w w' : World)
  (c' : Configuration) :
  skip_destination_validation verification_ctx = true ->
  short_uid (uid_draws w) <> EmptyString ->
  _validate_notification self verification_ctx w = (c', w', Returned tt) ->
  _validate_notification self (set_configuration c' verification_ctx) w'
  = (c', w', Returned tt).
Proof.
  intros Hskip Huid Hrun.
  assert (Hok : snd (_validate_notification self verification_ctx w)
                = Returned tt) by now rewrite Hrun.
  destruct (accepted_rules _ _ _ Hok) as (Hself & Harn & Hvalid & Hc).
  rewrite Hrun in Hc. cbn [fst] in Hc.
  set (c := configuration verification_ctx) in *.
  set (normal := map normalize_rule (rules_of (Filter c))) in *.
  pose proof (with_id_fields w c) as (Ha & _ & Hf & Hi).
  pose proof (with_rules_fields normal (with_id w c)) as (Hi' & Ha' & _).
  assert (Hrules : rules_of (Filter c') = normal).
  { pose proof (rules_of_with_rules_checked w c) as E.
    rewrite validate_filter_rules_valid in E by assumption. now rewrite Hc. }
  assert (Hvalid' : Forall valid_rule normal).
  { apply Forall_forall. intros rule Hin. apply in_map_iff in Hin.
    destruct Hin as [r [<- Hr]]. rewrite Forall_forall in Hvalid.
    now apply valid_rule_normalize, Hvalid. }
  assert (Hnormal : map normalize_rule normal = normal).
  { subst normal. rewrite map_map. apply map_ext. intros r.
    unfold normalize_rule. simpl. now rewrite capitalize_capitalize. }
  assert (Hid : truthy_opt (Id c') = true).
  { rewrite Hc, Hi', Hi. destruct (truthy_opt (Id c)) eqn:Ht; [exact Ht|].
    simpl. now apply truthy_iff. }
  assert (Hpass : passes_destination_checks self
                    (set_configuration c' verification_ctx) w').
  { split; [assumption|]. split; [|now left].
    unfold destination_arn in *. cbn [configuration set_configuration].
    now rewrite Hc, Ha', Ha. }
  destruct (validate_notification_reaches _ _ _ Hpass) as [w'' Hres].
  cbn [configuration set_configuration] in Hres.
  pose proof (validate_notification_skip_world self
                (set_configuration c' verification_ctx) w' Hskip) as Hw.
  rewrite Hres in Hw. cbn [fst snd configuration set_configuration] in Hw.
  rewrite Hres, Hw, Hrules.
  rewrite validate_filter_rules_valid by assumption. cbn [fst snd].
  rewrite Hnormal.
  assert (Hsame : with_id w' c' = c' /\ after_id w' c' = w').
  { unfold with_id, after_id. now rewrite Hid. }
  destruct Hsame as [-> ->]. rewrite <- Hrules. now rewrite with_rules_own.
Qed.

(** ** The ARN check and the live check *)

Lemma arn_matches_empty (service : string) : arn_matches service EmptyString = false.
Proof.
  unfold arn_matches. induction partitions as [|p ps IH]; [reflexivity|].
  simpl. exact IH.
Qed.

(** X6.  The ARN check comes before everything that reaches a
    destination: an entry without an ARN never has the pattern, and when
    the ARN does not have the pattern validation raises the ARN error
    without any call of [_verify_target], also when the live check is
    not skipped, and without touching the filter rules. *)
Theorem malformed_arn_stops_validation (self : Notifier)
  (verification_ctx : BucketVerificationContext) (w : World) :
  self <> EventBridgeNotifier ->
  let c := configuration verification_ctx in
  let result := _validate_notification self verification_ctx w in
  (Arn c = None ->
   arn_matches (service_name self) (destination_arn c) = false) /\
  (arn_matches (service_name self) (destination_arn c) = false ->
   verify_calls (snd (fst result)) = verify_calls w /\
   Filter (fst (fst result)) = Filter c /\
   exists argument_name,
     snd result
     = Raised (InvalidArgument arn_message argument_name (destination_arn c))).
Proof.
  intros Hself c result. split.
  - intros Hnone. unfold destination_arn. rewrite Hnone.
    apply arn_matches_empty.
  - intros Harn.
    destruct (validate_notification_bad_arn self verification_ctx w Hself Harn)
      as [argument_name [_ Hres]].
    subst result. rewrite Hres. cbn [fst snd].
    split; [apply after_id_calls|]. split; [apply with_id_fields|].
    now exists argument_name.
Qed.

(** X7.  When the live check of a destination fails, validation raises
    the error of the check as it is; the call of [_verify_target] is the
    only one made, the entry has its [Id] settled, and its filter rules
    are neither checked nor rewritten. *)
Theorem failed_live_check (self : Notifier)
  (verification_ctx : BucketVerificationContext) (w : World) (err : exn) :
  self <> EventBridgeNotifier ->
  skip_destination_validation verification_ctx = false ->
  let c := configuration verification_ctx in
  arn_matches (service_name self) (destination_arn c) = true ->
  live_check (List.length (verify_calls w)) self (destination_arn c)
    (set_configuration (with_id w c) verification_ctx) = Raised err ->
  _validate_notification self verification_ctx w
  = (with_id w c, called self c (after_id w c), Raised err).
Proof.
  intros Hself HS c. subst c.
  unfold destination_arn, with_id.
  destruct self; [| | |now elim Hself].
  all: validation_paths verification_ctx; intros HA HL; congruence.
Qed.

Lemma validate_notification_live_call (self : Notifier)
  (verification_ctx : BucketVerificationContext) (w : World) :
  skip_destination_validation verification_ctx = false ->
  snd (_validate_notification self verification_ctx w) = Returned tt ->
  verify_calls (snd (fst (_validate_notification self verification_ctx w)))
  = (verify_calls w
     ++ [(self, destination_arn (configuration verification_ctx))])%list.
Proof.
  intros Hs. destruct self.
  4: { unfold _validate_notification.
       destruct (negb (truthy_opt (Id (configuration verification_ctx))));
         discriminate. }
  all: validation_paths verification_ctx; try discriminate; try congruence.
  all: match goal with
       | |- context [configured_filter_rules ?c] =>
           destruct (configured_filter_rules c) as [[|rule rest]|];
           try reflexivity;
           destruct (validate_filter_rules (rule :: rest)); reflexivity
       end.
Qed.

Lemma validate_each_live_calls (self : Notifier)
  (configurations : list Configuration) (context : RequestContext)
  (bucket_name' : string) :
  forall w,
    snd (validate_each self configurations false context bucket_name' w)
    = Returned tt ->
    verify_calls
      (snd (fst (validate_each self configurations false context bucket_name' w)))
    = (verify_calls w
       ++ map (fun c => (self, destination_arn c)) configurations)%list.
Proof.
  induction configurations as [|c rest IH]; intros w; simpl.
  - intros _. now rewrite app_nil_r.
  - match goal with
    | |- context [_validate_notification ?s ?v ?w0] =>
        pose proof (validate_notification_live_call s v w0 eq_refl) as Hc;
        destruct (_validate_notification s v w0) as [[c' w'] res]
    end.
    cbn [fst snd configuration] in Hc.
    destruct res as [[]|e]; [|discriminate].
    specialize (IH w').
    destruct (validate_each self rest false context bucket_name' w')
      as [[rest' w''] res'].
    cbn [fst snd] in *. intros Hok.
    rewrite IH, Hc by auto. now rewrite <- app_assoc.
Qed.

Lemma verify_item_live_calls (item : ConfigItem) (context : RequestContext)
  (bucket_name' : string) (w : World) :
  snd (verify_item item false context bucket_name' w) = Returned tt ->
  verify_calls (snd (fst (verify_item item false context bucket_name' w)))
  = (verify_calls w
     ++ map (fun c => (notifiers item, destination_arn c)) (entries_of item))%list.
Proof.
  destruct item as [l|l|l|]; simpl;
    [| | |intros _; now rewrite app_nil_r];
    match goal with
    | |- context [validate_each ?s l false context bucket_name' w] =>
        pose proof (validate_each_live_calls s l context bucket_name' w) as H1;
        destruct (validate_each s l false context bucket_name' w)
          as [[l' w'] res]; exact H1
    end.
Qed.

(** X8.  When [verify_configuration] accepts a configuration with the
    live check on, it has called [_verify_target] exactly once for every
    entry of the three lists, with the notifier of the list and the ARN
    of the entry, in the order of the configuration, and never for the
    EventBridge configuration. *)
Theorem live_checks_in_order
  (notification_configurations : NotificationConfiguration)
  (context : RequestContext) (bucket_name' : string) (w : World) :
  snd (verify_configuration notification_configurations false context
         bucket_name' w)
  = Returned tt ->
  verify_calls
    (snd (fst (verify_configuration notification_configurations false context
                 bucket_name' w)))
  = (verify_calls w ++ expected_calls notification_configurations)%list.
Proof.
  revert w. unfold expected_calls.
  induction notification_configurations as [|item rest IH]; intros w; simpl.
  - intros _. now rewrite app_nil_r.
  - pose proof (verify_item_live_calls item context bucket_name' w) as Hi.
    destruct (verify_item item false context bucket_name' w)
      as [[item' w'] res].
    cbn [fst snd] in Hi.
    destruct res as [[]|e]; [|discriminate].
    specialize (IH w').
    destruct (verify_configuration rest false context bucket_name' w')
      as [[rest' w''] res'].
    cbn [fst snd] in *. intros Hok.
    rewrite IH, Hi by auto. now rewrite <- app_assoc.
Qed.

(** X9.  [verify_configuration] goes through the configuration in order
    and stops at the first failure: on two configurations put end to end
    it is the validation of the first followed, when that succeeds, by
    the validation of the second in the world the first one left; when
    the first fails the second is left as it is, no identifier is drawn
    and no destination is checked for it. *)
Theorem verify_configuration_app
  (a b : NotificationConfiguration) (skip : bool) (context : RequestContext)
  (bucket_name' : string) (w : World) :
  verify_configuration (a ++ b)%list skip context bucket_name' w
  = let '(a', w1, res) := verify_configuration a skip context bucket_name' w in
    match res with
    | Raised e => ((a' ++ b)%list, w1, Raised e)
    | Returned _ =>
        let '(b', w2, res') :=
          verify_configuration b skip context bucket_name' w1 in
        ((a' ++ b')%list, w2, res')
    end.
Proof.
  revert w. induction a as [|item rest IH]; intros w; simpl.
  - destruct (verify_configuration b skip context bucket_name' w)
      as [[b' w2] res']. reflexivity.
  - destruct (verify_item item skip context bucket_name' w)
      as [[item' w'] res].
    destruct res as [u|e]; [|reflexivity].
    rewrite IH.
    destruct (verify_configuration rest skip context bucket_name' w')
      as [[rest' w1] res1].
    destruct res1 as [u1|e1]; [|reflexivity].
    destruct (verify_configuration b skip context bucket_name' w1)
      as [[b' w2] res']. reflexivity.
Qed.

(** ** What the dispatcher submits, whatever happens *)

Lemma submit_matching_prefix (notifier : Notifier)
  (ctx : S3EventNotificationContext) (configurations : list Config) :
  forall executor,
  exists submitted later,
    fst (submit_matching notifier ctx configurations executor)
    = (executor ++ submitted)%list /\
    matching_entries notifier ctx configurations = (submitted ++ later)%list /\
    (forall u, snd (submit_matching notifier ctx configurations executor)
               = Returned u -> later = []).
Proof.
  unfold matching_entries.
  induction configurations as [|config rest IH]; intros executor; simpl.
  - exists [], []. rewrite app_nil_r. repeat split.
  - destruct (should_notify notifier ctx config) as [[|]|e].
    + destruct (IH (_submit_notification notifier ctx config executor))
        as (submitted & later & H1 & H2 & H3).
      exists (task_for notifier ctx config :: submitted), later.
      rewrite H1, H2. unfold _submit_notification, task_for.
      rewrite <- app_assoc. repeat split. exact H3.
    + destruct (IH executor) as (submitted & later & H1 & H2 & H3).
      exists submitted, later. repeat split; assumption.
    + exists [], (flat_map
                    (fun config0 =>
                       match should_notify notifier ctx config0 with
                       | Returned true => [task_for notifier ctx config0]
                       | _ => []
                       end) rest).
      rewrite app_nil_r. repeat split. intros u H. discriminate H.
Qed.

Lemma send_notifications_decided (ctx : S3EventNotificationContext)
  (notification_config : NotificationConfiguration) :
  decides_every_entry ctx notification_config ->
  forall executor,
    send_notifications ctx notification_config executor
    = ((executor ++ matching_tasks ctx notification_config)%list, Returned tt).
Proof.
  unfold decides_every_entry. intros H.
  induction notification_config as [|item rest IH]; intros executor; simpl.
  - now rewrite app_nil_r.
  - destruct (is_api_enabled (service_name (notifiers item))) eqn:He; simpl.
    + rewrite submit_matching_all
        by (intros c Hc; apply (H item c); [now left | assumption | assumption]).
      rewrite IH by (intros i c Hi; apply H; now right).
      now rewrite <- app_assoc.
    + apply IH. intros i c Hi. apply H. now right.
Qed.

(** X10.  Whether it returns or raises, [send_notifications] only adds to
    the queue of the executor, and what it adds is a leading part of the
    tasks of the enabled, matching entries in the order of the
    configuration: nothing is submitted for a disabled kind or for an
    entry that does not match, nothing is submitted twice or out of
    order, and when the call returns nothing is missing. *)
Theorem send_notifications_prefix (ctx : S3EventNotificationContext)
  (notification_config : NotificationConfiguration) (executor : Executor) :
  exists submitted later,
    fst (send_notifications ctx notification_config executor)
    = (executor ++ submitted)%list /\
    matching_tasks ctx notification_config = (submitted ++ later)%list /\
    (forall u, snd (send_notifications ctx notification_config executor)
               = Returned u -> later = []).
Proof.
  revert executor. unfold matching_tasks.
  induction notification_config as [|item rest IH]; intros executor; simpl.
  - exists [], []. rewrite app_nil_r. repeat split.
  - destruct (is_api_enabled (service_name (notifiers item))); simpl.
    + destruct (submit_matching_prefix (notifiers item) ctx
                  (configurations_of item) executor)
        as (s1 & l1 & H1 & H2 & H3).
      destruct (submit_matching (notifiers item) ctx (configurations_of item)
                  executor) as [executor' [u|e]]; cbn [fst snd] in *.
      * rewrite (H3 u eq_refl), app_nil_r in H2.
        destruct (IH executor') as (s2 & l2 & G1 & G2 & G3).
        exists (s1 ++ s2)%list, l2. subst executor'.
        rewrite G1, G2, H2, !app_assoc. repeat split. exact G3.
      * exists s1, (l1 ++ flat_map
                            (fun item0 =>
                               if is_api_enabled (service_name (notifiers item0))
                               then matching_entries (notifiers item0) ctx
                                      (configurations_of item0)
                               else []) rest)%list.
        rewrite H2, app_assoc. repeat split; [assumption|].
        intros u H. discriminate H.
    + apply IH.
Qed.

(** X11.  A disabled kind is skipped before any of its entries is looked
    at: [send_notifications] does on a configuration what it does on the
    items of enabled kinds alone, so an entry of a disabled kind can
    neither be submitted nor make the call raise. *)
Theorem disabled_kinds_ignored (ctx : S3EventNotificationContext)
  (notification_config : NotificationConfiguration) (executor : Executor) :
  send_notifications ctx notification_config executor
  = send_notifications ctx
      (filter (fun item => is_api_enabled (service_name (notifiers item)))
         notification_config)
      executor.
Proof.
  revert executor.
  induction notification_config as [|item rest IH]; intros executor; simpl;
    [reflexivity|].
  destruct (is_api_enabled (service_name (notifiers item))) eqn:He; simpl.
  - rewrite He. simpl.
    destruct (submit_matching (notifiers item) ctx (configurations_of item)
                executor) as [executor' [u|e]]; [apply IH | reflexivity].
  - apply IH.
Qed.

Lemma handled_operation_colon (wire_name : string) :
  In wire_name (map fst EVENT_OPERATION_MAP) ->
  ~ no_colon (map_get wire_name EVENT_OPERATION_MAP EmptyString).
Proof.
  intros Hin Hn. apply rfind_colon_None in Hn.
  simpl in Hin.
  repeat (destruct Hin as [<-|Hin]; [discriminate Hn|]).
  contradiction.
Qed.

(** X12.  A context built by [from_request_context_native] for an
    operation of [EVENT_OPERATION_MAP] has an event type with a colon, so
    on such a context [send_notifications] never raises: it returns
    after submitting a task for every enabled, matching entry. *)
Theorem handled_operations_dispatch (now : Z)
  (request_context : RequestContext) (s3_bucket : S3Bucket)
  (s3_object : S3ObjectOrMarker)
  (notification_config : NotificationConfiguration) (executor : Executor) :
  In (rc_wire_name request_context) (map fst EVENT_OPERATION_MAP) ->
  let ctx :=
    from_request_context_native now request_context s3_bucket s3_object in
  ~ no_colon (event_type ctx) /\
  send_notifications ctx notification_config executor
  = ((executor ++ matching_tasks ctx notification_config)%list, Returned tt).
Proof.
  intros Hin ctx.
  assert (Hcolon : ~ no_colon (event_type ctx)).
  { subst ctx. unfold from_request_context_native.
    destruct s3_object; simpl; now apply handled_operation_colon. }
  split; [exact Hcolon|].
  apply send_notifications_decided. now apply decides_when_colon.
Qed.

(** ** The fields of the generic record *)

Ltac record_cases ctx :=
  unfold BaseNotifier_get_event_payload, created_or_restore, delete_marker,
    tagging_or_acl, restore_completed;
  cbv zeta;
  generalize (contains "created" (lower (event_type ctx))
              || contains "restore" (lower (event_type ctx)));
  generalize (contains "deletemarker" (lower (event_type ctx)));
  generalize (contains "ObjectTagging" (event_type ctx)
              || contains "ObjectAcl" (event_type ctx));
  generalize (contains "objectrestore:completed" (lower (event_type ctx)));
  intros b4 b3 b2 b1;
  destruct (key_version_id ctx) as [v|];
  [destruct (truthy v && negb (v =? "null"))|];
  destruct b1, b2, b3, b4; cbn.

(** X13.  The object block of the generic record always has the key of
    the context.  It has [eTag] exactly for created-like, restore-like,
    tagging and ACL events, [size] exactly for created-like and
    restore-like events that are not about a delete marker, and
    [sequencer] exactly for events that are neither tagging nor ACL
    events, for which the event version is 2.3 instead of 2.1. *)
Theorem record_object_block (request_uid : string)
  (ctx : S3EventNotificationContext) (config_id : option string) :
  exists record,
    BaseNotifier_get_event_payload request_uid ctx config_id
    = Returned {| Records := [record] |} /\
    PyDict.get "key" (object (s3 record)) = Some (VStr (key_name ctx)) /\
    PyDict.get "eTag" (object (s3 record))
    = (if created_or_restore (event_type ctx) || tagging_or_acl (event_type ctx)
       then Some (VStr (key_etag ctx)) else None) /\
    PyDict.get "size" (object (s3 record))
    = (if created_or_restore (event_type ctx)
          && negb (delete_marker (event_type ctx))
       then Some (VInt (key_size ctx)) else None) /\
    PyDict.has_key "sequencer" (object (s3 record))
    = negb (tagging_or_acl (event_type ctx)) /\
    eventVersion record
    = (if tagging_or_acl (event_type ctx) then "2.3" else "2.1").
Proof.
  record_cases ctx; eexists; (split; [reflexivity|]); repeat split.
Qed.

(** X14.  Only a completed restore moves the time of the generic record
    and adds [glacierEventData]: for every other event [eventTime] is the
    timestamp of the event time itself, there is no [glacierEventData],
    and the principal is the default one; for a completed restore the
    time is 500 milliseconds later and the principal is the customer
    one. *)
Theorem record_time_and_restore_data (request_uid : string)
  (ctx : S3EventNotificationContext) (config_id : option string) :
  exists record,
    BaseNotifier_get_event_payload request_uid ctx config_id
    = Returned {| Records := [record] |} /\
    eventTime record
    = timestamp_millis
        (Some (if restore_completed (event_type ctx)
               then (event_time ctx + timedelta_milliseconds 500)%Z
               else event_time ctx)) /\
    (glacierEventData record = None <->
     restore_completed (event_type ctx) = false) /\
    userIdentity record
    = [("principalId",
        VStr (if restore_completed (event_type ctx)
              then "AmazonCustomer:A3NL1KOZZKExample"
              else "AIDAJDPLRKLG7UEXAMPLE"))].
Proof.
  record_cases ctx; eexists; (split; [reflexivity|]);
    (split;
     [first [reflexivity | exact (advance_milliseconds (event_time ctx) 500)]|]);
    (split; [|reflexivity]);
    split; intros H; first [reflexivity | discriminate H].
Qed.

(** X15.  The fields of the generic record that identify the event do not
    depend on its type and are never overwritten: the event name is the
    event type without a leading [s3:], the region is the location of
    the bucket, the configuration id is the one passed in, the request
    id is the identifier drawn, and the bucket block names the bucket
    and its ARN in the partition of the region of the context. *)
Theorem record_identity_fields (request_uid : string)
  (ctx : S3EventNotificationContext) (config_id : option string) :
  exists record,
    BaseNotifier_get_event_payload request_uid ctx config_id
    = Returned {| Records := [record] |} /\
    eventSource record = "aws:s3" /\
    eventName record = removeprefix "s3:" (event_type ctx) /\
    awsRegion record = bucket_location ctx /\
    configurationId (s3 record) = config_id /\
    s3SchemaVersion (s3 record) = "1.0" /\
    PyDict.get "x-amz-request-id" (responseElements record)
    = Some (VStr request_uid) /\
    PyDict.get "name" (bucket (s3 record)) = Some (VStr (bucket_name ctx)) /\
    PyDict.get "arn" (bucket (s3 record))
    = Some (VStr ("arn:" ++ get_partition (region ctx) ++ ":s3:::"
                  ++ bucket_name ctx)).
Proof.
  record_cases ctx; eexists; (split; [reflexivity|]); repeat split.
Qed.

(** ** The event-bus entry on every event type *)

Ltac split_if :=
  match goal with
  | |- context [if ?b then _ else _] => destruct b eqn:?
  end.

Ltac bus_unfold :=
  unfold EventBridgeNotifier_get_event_payload, eventbridge_by_event_type,
    rindex_colon, version_shown, reaches_restore;
  cbv zeta.

Ltac bus_context ctx :=
  destruct (xray ctx) as [h|]; [destruct (truthy h)|];
  (destruct (key_version_id ctx) as [v|];
   [destruct (truthy v && negb (v =? "null"))|]).

(** X16.  The event-bus builder raises in one case only: an event type
    that contains [ObjectCreated] and has no colon makes it raise
    [ValueError].  On every other event type it returns an entry whose
    detail has an object block with the key of the context; none of the
    fields it removes can be missing. *)
Theorem event_bus_payload_partial (ctx : S3EventNotificationContext) :
  (contains "ObjectCreated" (event_type ctx) = true /\
   no_colon (event_type ctx) /\
   EventBridgeNotifier_get_event_payload ctx
   = Raised (ValueError "substring not found")) \/
  ((contains "ObjectCreated" (event_type ctx) = false \/
    ~ no_colon (event_type ctx)) /\
   exists entry event_details o,
     EventBridgeNotifier_get_event_payload ctx = Returned entry /\
     Detail entry = Some event_details /\
     details_object event_details = Returned o /\
     PyDict.get "key" o = Some (VStr (key_name ctx))).
Proof.
  destruct (contains "ObjectCreated" (event_type ctx)) eqn:Hc.
  - destruct (rfind_colon (event_type ctx)) as [i|] eqn:Hr.
    + right. split.
      { right. intros Hn. apply rfind_colon_None in Hn. congruence. }
      bus_unfold. rewrite Hc, Hr. bus_context ctx; cbn;
        repeat split_if; do 3 eexists; repeat split; reflexivity.
    + left. split; [reflexivity|]. split; [now apply rfind_colon_None|].
      bus_unfold. rewrite Hc, Hr. bus_context ctx; reflexivity.
  - right. split; [now left|].
    bus_unfold. rewrite Hc. bus_context ctx; cbn;
      repeat (split_if; cbn); do 3 eexists; repeat split; reflexivity.
Qed.

Lemma created_contains (action : string) :
  contains "ObjectCreated" ("s3:ObjectCreated:" ++ action) = true.
Proof. reflexivity. Qed.

Lemma created_rfind (action : string) :
  no_colon action ->
  rfind_colon ("s3:ObjectCreated:" ++ action) = Some 16%nat.
Proof.
  intros H.
  change ("s3:ObjectCreated:" ++ action)
    with ("s3:ObjectCreated" ++ String colon action).
  now rewrite rfind_colon_append.
Qed.

Lemma created_action (action : string) :
  slice_from 17 ("s3:ObjectCreated:" ++ action) = action.
Proof.
  unfold slice_from. simpl. rewrite Nat.sub_0_r. apply substring_all.
Qed.

(** X17.  For an event type [s3:ObjectCreated:] followed by an action
    without a colon, the event-bus entry has the detail type
    [Object Created] and the time of the event, its reason is the action
    followed by [Object] when the action is [Put], [Post] or [Copy] and
    the whole event type otherwise, and its object block keeps size,
    etag and sequencer. *)
Theorem created_event_bus_payload (ctx : S3EventNotificationContext)
  (action : string) :
  event_type ctx = "s3:ObjectCreated:" ++ action ->
  no_colon action ->
  exists entry event_details o,
    EventBridgeNotifier_get_event_payload ctx = Returned entry /\
    DetailType entry = Some "Object Created" /\
    EntryTime entry = event_time ctx /\
    Detail entry = Some event_details /\
    PyDict.get "reason" event_details
    = Some (VStr (if is_in action ["Put"; "Post"; "Copy"]
                  then action ++ "Object" else event_type ctx)) /\
    details_object event_details = Returned o /\
    PyDict.get "size" o = Some (VInt (key_size ctx)) /\
    PyDict.get "etag" o = Some (VStr (key_etag ctx)) /\
    PyDict.has_key "sequencer" o = true.
Proof.
  intros Het Hn. bus_unfold.
  rewrite Het, created_contains, (created_rfind action Hn).
  cbn [bind Nat.add]. rewrite created_action.
  destruct (is_in action ["Put"; "Post"; "Copy"]);
    bus_context ctx; cbn; do 3 eexists; repeat split; reflexivity.
Qed.

(** X18.  For an event type that contains [ObjectRemoved] and not
    [ObjectCreated], the event-bus entry has the detail type
    [Object Deleted], the reason [DeleteObject] and no size; when the
    event type contains [DeleteMarkerCreated] the deletion type is
    [Delete Marker Created] and the etag is kept, otherwise the deletion
    type is [Permanently Deleted] and the etag is dropped. *)
Theorem removed_event_bus_payload (ctx : S3EventNotificationContext) :
  contains "ObjectCreated" (event_type ctx) = false ->
  contains "ObjectRemoved" (event_type ctx) = true ->
  exists entry event_details o,
    EventBridgeNotifier_get_event_payload ctx = Returned entry /\
    DetailType entry = Some "Object Deleted" /\
    EntryTime entry = event_time ctx /\
    Detail entry = Some event_details /\
    PyDict.get "reason" event_details = Some (VStr "DeleteObject") /\
    PyDict.get "deletion-type" event_details
    = Some (VStr (if contains "DeleteMarkerCreated" (event_type ctx)
                  then "Delete Marker Created" else "Permanently Deleted")) /\
    details_object event_details = Returned o /\
    PyDict.has_key "size" o = false /\
    PyDict.has_key "etag" o = contains "DeleteMarkerCreated" (event_type ctx) /\
    PyDict.has_key "sequencer" o = true.
Proof.
  intros Hc Hr. bus_unfold. rewrite Hc, Hr.
  destruct (contains "DeleteMarkerCreated" (event_type ctx));
    bus_context ctx; cbn; do 3 eexists; repeat split; reflexivity.
Qed.

(** X19.  Whatever the event type, an entry that the event-bus builder
    returns has the source [aws.s3], the ARN of the bucket as its only
    resource, the trace header exactly when the context has a trace id
    that is not empty, a [version-id] in its object block exactly when
    the version id of the context is present, not empty and not
    ["null"], and the time of the event, moved by one second only on the
    restore branch for an event type that ends in [Completed]. *)
Theorem event_bus_common_fields (ctx : S3EventNotificationContext)
  (entry : PutEventsRequestEntry) :
  EventBridgeNotifier_get_event_payload ctx = Returned entry ->
  Source entry = "aws.s3" /\
  Resources entry
  = ["arn:" ++ get_partition (region ctx) ++ ":s3:::" ++ bucket_name ctx] /\
  TraceHeader entry
  = (match xray ctx with
     | Some h => if truthy h then Some h else None
     | None => None
     end) /\
  EntryTime entry
  = (if reaches_restore (event_type ctx)
        && endswith (event_type ctx) "Completed"
     then (event_time ctx + timedelta_seconds 1)%Z else event_time ctx) /\
  exists event_details o,
    Detail entry = Some event_details /\
    PyDict.get "request-id" event_details = Some (VStr (request_id ctx)) /\
    details_object event_details = Returned o /\
    PyDict.has_key "version-id" o = version_shown ctx.
Proof.
  bus_unfold.
  destruct (contains "ObjectCreated" (event_type ctx)) eqn:Hc.
  - destruct (rfind_colon (event_type ctx)) as [i|] eqn:Hr.
    + bus_context ctx; cbn; repeat split_if; intros H; injection H as <-;
        repeat split; do 2 eexists; repeat split; reflexivity.
    + bus_context ctx; cbn; intros H; discriminate H.
  - bus_context ctx; cbn; repeat (split_if; cbn); intros H;
      injection H as <-; repeat split; do 2 eexists; repeat split;
      reflexivity.
Qed.

(** X20.  For the ACL and the tagging events the event-bus entry keeps
    the time of the event and the etag; the ACL event has the detail
    type [Object ACL Updated] and neither size nor sequencer in its
    object block; the tagging events have the detail types
    [Object Tags Added] for [Put] and [Object Tags Deleted] for [Delete]
    and keep size and sequencer. *)
Theorem acl_and_tagging_event_bus_payload (ctx : S3EventNotificationContext) :
  In (event_type ctx)
     [s3_ObjectAcl_Put; s3_ObjectTagging_Put; s3_ObjectTagging_Delete] ->
  exists entry event_details o,
    EventBridgeNotifier_get_event_payload ctx = Returned entry /\
    EntryTime entry = event_time ctx /\
    Detail entry = Some event_details /\
    details_object event_details = Returned o /\
    PyDict.get "etag" o = Some (VStr (key_etag ctx)) /\
    PyDict.has_key "reason" event_details = false /\
    DetailType entry
    = Some (if event_type ctx =? s3_ObjectAcl_Put then "Object ACL Updated"
            else if event_type ctx =? s3_ObjectTagging_Put
                 then "Object Tags Added" else "Object Tags Deleted") /\
    PyDict.has_key "size" o = negb (event_type ctx =? s3_ObjectAcl_Put) /\
    PyDict.has_key "sequencer" o = negb (event_type ctx =? s3_ObjectAcl_Put).
Proof.
  intros Hin. bus_unfold.
  destruct Hin as [H|[H|[H|[]]]]; rewrite <- H;
    bus_context ctx; cbn; do 3 eexists; repeat split; reflexivity.
Qed.

(** ** The etag and the version id of a context *)

Lemma lstrip_char_head (c : ascii) (s t : string) :
  lstrip_char c s <> String c t.
Proof.
  induction s as [|a r IH]; simpl; [discriminate|].
  destruct (Ascii.eqb_spec a c) as [->|Hac]; [exact IH|].
  intros H. injection H as H _. contradiction.
Qed.

Lemma rstrip_char_head (c : ascii) (s t : string) :
  (forall t', s <> String c t') -> rstrip_char c s <> String c t.
Proof.
  intros Hs. destruct s as [|a r]; simpl; [discriminate|].
  assert (Hac : a <> c). { intros ->. now apply (Hs r). }
  destruct (rstrip_char c r).
  - destruct (Ascii.eqb_spec a c); [discriminate|].
    intros H. injection H as H. contradiction.
  - intros H. injection H as H _. contradiction.
Qed.

Lemma rstrip_char_last (c : ascii) (s : string) :
  forall t, rstrip_char c s <> t ++ String c EmptyString.
Proof.
  induction s as [|a r IH]; intros t; simpl.
  - destruct t; discriminate.
  - destruct (rstrip_char c r) as [|b r'] eqn:Hr.
    + destruct (Ascii.eqb_spec a c) as [->|Hac].
      * destruct t; discriminate.
      * destruct t as [|d t']; simpl.
        -- intros H. injection H as H. contradiction.
        -- intros H. injection H as _ H. destruct t'; discriminate.
    + destruct t as [|d t']; simpl.
      * intros H. injection H as _ H. discriminate.
      * intros H. injection H as _ H. now apply (IH t').
Qed.

Lemma rstrip_char_quoted (c : ascii) (e : string) :
  free_of c e -> rstrip_char c (e ++ String c EmptyString) = e.
Proof.
  induction e as [|a r IH]; cbn [append rstrip_char free_of].
  - intros _. now rewrite Ascii.eqb_refl.
  - intros [Hac Hr]. rewrite (IH Hr). destruct r as [|b r'].
    + destruct (Ascii.eqb_spec a c); [contradiction | reflexivity].
    + reflexivity.
Qed.

Lemma lstrip_char_free (c : ascii) (e r : string) :
  free_of c e -> e <> EmptyString -> lstrip_char c (e ++ r) = e ++ r.
Proof.
  destruct e as [|a e']; [congruence|]. simpl. intros [Hac _] _.
  destruct (Ascii.eqb_spec a c); [contradiction | reflexivity].
Qed.

(** X21.  The etag of a context built for an object never starts and
    never ends with a double quote, and when the etag of the object is a
    text without double quotes put between two double quotes, the etag
    of the context is that text. *)
Theorem context_etag_unquoted (now : Z) (request_context : RequestContext)
  (s3_bucket : S3Bucket) (key etag : string) (size : Z) (expires : option Z)
  (storage_class version_id : option string) :
  let ctx :=
    from_request_context_native now request_context s3_bucket
      (S3Object key etag size expires storage_class version_id) in
  (forall t, key_etag ctx <> String double_quote t) /\
  (forall t, key_etag ctx <> t ++ String double_quote EmptyString) /\
  (forall e, free_of double_quote e ->
     etag = String double_quote (e ++ String double_quote EmptyString) ->
     key_etag ctx = e).
Proof.
  intros ctx. subst ctx. cbn [from_request_context_native key_etag].
  unfold strip_char. split; [|split].
  - intros t. apply rstrip_char_head. intros t'. apply lstrip_char_head.
  - apply rstrip_char_last.
  - intros e He ->. cbn [lstrip_char]. rewrite Ascii.eqb_refl.
    destruct e as [|a r].
    + cbn [append lstrip_char rstrip_char]. now rewrite Ascii.eqb_refl.
    + rewrite lstrip_char_free by (assumption || discriminate).
      now apply rstrip_char_quoted.
Qed.

Lemma record_without_version (request_uid : string)
  (ctx : S3EventNotificationContext) (config_id : option string) :
  key_version_id ctx = None ->
  exists record,
    BaseNotifier_get_event_payload request_uid ctx config_id
    = Returned {| Records := [record] |} /\
    PyDict.has_key "versionId" (object (s3 record)) = false.
Proof.
  intros Hv. unfold BaseNotifier_get_event_payload. cbv zeta. rewrite Hv.
  generalize (contains "created" (lower (event_type ctx))
              || contains "restore" (lower (event_type ctx))).
  generalize (contains "deletemarker" (lower (event_type ctx))).
  generalize (contains "ObjectTagging" (event_type ctx)
              || contains "ObjectAcl" (event_type ctx)).
  generalize (contains "objectrestore:completed" (lower (event_type ctx))).
  intros b4 b3 b2 b1. destruct b1, b2, b3, b4; cbn; eexists; split; reflexivity.
Qed.

(** X22.  When the versioning status of the bucket is missing or empty,
    the context has no version id, whatever the version id of the
    object, and the generic record built from it has no [versionId]. *)
Theorem unversioned_bucket_hides_version (now : Z)
  (request_context : RequestContext) (s3_bucket : S3Bucket)
  (s3_object : S3ObjectOrMarker) (request_uid : string)
  (config_id : option string) :
  truthy_opt (versioning_status s3_bucket) = false ->
  let ctx :=
    from_request_context_native now request_context s3_bucket s3_object in
  key_version_id ctx = None /\
  exists record,
    BaseNotifier_get_event_payload request_uid ctx config_id
    = Returned {| Records := [record] |} /\
    PyDict.has_key "versionId" (object (s3 record)) = false.
Proof.
  intros Hv ctx.
  assert (Hnone : key_version_id ctx = None).
  { subst ctx. unfold from_request_context_native.
    destruct s3_object; cbn [key_version_id]; now rewrite Hv. }
  split; [exact Hnone|]. now apply record_without_version.
Qed.

(** ** An ARN belongs to one service *)

Lemma string_app_assoc (a b c : string) : (a ++ b) ++ c = a ++ b ++ c.
Proof. induction a as [|x a IH]; simpl; [reflexivity | now rewrite IH]. Qed.

Lemma split_at_first_colon (a b x y : string) :
  no_colon a -> no_colon b ->
  a ++ String colon x = b ++ String colon y -> a = b /\ x = y.
Proof.
  revert b. induction a as [|c a IH]; intros b Ha Hb H.
  - destruct b as [|d b]; simpl in *.
    + injection H as H. now split.
    + injection H as H _. destruct Hb as [Hd _]. now elim Hd.
  - destruct b as [|d b]; simpl in *.
    + injection H as H _. destruct Ha as [Hc _]. now elim Hc.
    + injection H as Hcd H. destruct Ha as [_ Ha]. destruct Hb as [_ Hb].
      destruct (IH b Ha Hb H) as [-> ->]. now subst.
Qed.

Lemma service_name_no_colon (self : Notifier) : no_colon (service_name self).
Proof. destruct self; simpl; repeat split; discriminate. Qed.

Lemma service_name_injective (self other : Notifier) :
  service_name self = service_name other -> self = other.
Proof. destruct self, other; simpl; intros H; reflexivity || discriminate H. Qed.

Lemma arn_matches_shape (service arn : string) :
  arn_matches service arn = true ->
  exists p rest,
    In p partitions /\
    arn = "arn:" ++ p ++ String colon (service ++ String colon rest).
Proof.
  unfold arn_matches. rewrite existsb_exists. intros [p [Hp Hpre]].
  apply prefix_iff in Hpre. destruct Hpre as [rest ->].
  exists p, rest. split; [assumption|].
  simpl. rewrite !string_app_assoc. simpl. rewrite !string_app_assoc.
  reflexivity.
Qed.

(** X23.  When no partition name has a colon, an ARN has the pattern of
    at most one service: the notifier of any other list rejects an entry
    whose ARN has the pattern of this one with the ARN error. *)
Theorem arn_of_another_service (self other : Notifier)
  (verification_ctx : BucketVerificationContext) (w : World) :
  (forall p, In p partitions -> no_colon p) ->
  arn_matches (service_name self)
    (destination_arn (configuration verification_ctx)) = true ->
  other <> self ->
  other <> EventBridgeNotifier ->
  arn_matches (service_name other)
    (destination_arn (configuration verification_ctx)) = false /\
  exists argument_name,
    snd (_validate_notification other verification_ctx w)
    = Raised (InvalidArgument arn_message argument_name
                (destination_arn (configuration verification_ctx))).
Proof.
  intros Hparts Hself Hother Heb.
  assert (Hno : arn_matches (service_name other)
                  (destination_arn (configuration verification_ctx)) = false).
  { destruct (arn_matches (service_name other) _) eqn:Ho; [|reflexivity].
    destruct (arn_matches_shape _ _ Hself) as (p1 & r1 & Hp1 & E1).
    destruct (arn_matches_shape _ _ Ho) as (p2 & r2 & Hp2 & E2).
    rewrite E1 in E2. simpl in E2. injection E2 as E2.
    destruct (split_at_first_colon _ _ _ _ (Hparts _ Hp1) (Hparts _ Hp2) E2)
      as [_ E3].
    destruct (split_at_first_colon _ _ _ _ (service_name_no_colon self)
                (service_name_no_colon other) E3) as [E4 _].
    elim Hother. symmetry. now apply service_name_injective. }
  split; [exact Hno|].
  destruct (validate_notification_bad_arn other verification_ctx w Heb Hno)
    as [argument_name [_ Hres]].
  exists argument_name. now rewrite Hres.
Qed.

(** X24.  [send_notifications] goes through the configuration in order
    and stops at the first raise: on two configurations put end to end
    it does the first and then, when that returned, the second on the
    queue the first one left; when the first raises, nothing of the
    second is submitted. *)
Theorem send_notifications_app (ctx : S3EventNotificationContext)
  (a b : NotificationConfiguration) (executor : Executor) :
  send_notifications ctx (a ++ b)%list executor
  = match send_notifications ctx a executor with
    | (executor', Returned _) => send_notifications ctx b executor'
    | (executor', Raised e) => (executor', Raised e)
    end.
Proof.
  revert executor. induction a as [|item rest IH]; intros executor; simpl.
  - reflexivity.
  - destruct (negb (is_api_enabled (service_name (notifiers item))));
      [apply IH|].
    destruct (submit_matching (notifiers item) ctx (configurations_of item)
                executor) as [executor' [u|e]]; [apply IH | reflexivity].
Qed.

(** ** Wildcard selectors *)

Lemma string_app_inv_tail (a b c : string) : a ++ c = b ++ c -> a = b.
Proof.
  revert b. induction a as [|x a IH]; intros b H.
  - destruct b as [|y b]; [reflexivity|].
    apply (f_equal String.length) in H. simpl in H.
    rewrite length_append in H. lia.
  - destruct b as [|y b].
    + apply (f_equal String.length) in H. simpl in H.
      rewrite length_append in H. lia.
    + simpl in H. injection H as -> H. f_equal. now apply IH.
Qed.

(** X25.  A wildcard selector covers one level only: the selector made
    of a category followed by [":*"], alone in a list, matches an event
    type exactly when the event type is that selector itself or is the
    category, a colon and an action without a colon. *)
Theorem wildcard_selector_one_level (category event_name : string) :
  _matching_event [category ++ ":*"] event_name = Returned true <->
  event_name = category ++ ":*" \/
  exists action, no_colon action /\ event_name = category ++ ":" ++ action.
Proof.
  unfold _matching_event, rindex_colon.
  destruct (is_in event_name [category ++ ":*"]) eqn:Hin.
  - split; [|reflexivity]. intros _. left.
    apply is_in_In in Hin. destruct Hin as [H|[]]. now symmetry.
  - apply is_in_false in Hin. split.
    + destruct (rfind_colon event_name) as [i|] eqn:Hr; cbn [bind];
        [|discriminate].
      intros H. injection H as H. rewrite orb_false_r in H.
      apply String.eqb_eq in H. apply string_app_inv_tail in H.
      destruct (rfind_colon_split _ _ Hr) as [action [Hs Hn]].
      right. exists action. split; [assumption|].
      rewrite <- H. exact Hs.
    + intros [H|[action [Hn ->]]].
      * elim Hin. left. now symmetry.
      * change (category ++ ":" ++ action)
          with (category ++ String colon action).
        rewrite rfind_colon_append by assumption. cbn [bind].
        rewrite slice_to_append. f_equal. apply is_in_In. now left.
Qed.

(** ** The whole configuration without the live check *)














End Environment.

(** * The properties on concrete inputs *)

(** The selectors [s3:ObjectCreated:*] and an event without a type. *)
Lemma matching_event_partial_witness :
  ~ In EmptyString ["s3:ObjectCreated:*"] /\
  no_colon EmptyString /\
  _matching_event ["s3:ObjectCreated:*"] EmptyString
  = Raised (ValueError "substring not found").
Proof.
  assert (H1 : ~ In EmptyString ["s3:ObjectCreated:*"]).
  { intros [H|[]]. discriminate H. }
  assert (H2 : no_colon EmptyString) by exact I.
  split; [exact H1|]. split; [exact H2|].
  exact (proj1 (matching_event_partial all_enabled sample_quote
                  ["s3:ObjectCreated:*"] EmptyString untyped_ctx created_entry
                  [] [] [] sample_now (sample_request "GetObject")
                  sample_bucket (S3DeleteMarker "images/cat.png" None)
                  H1 H2)).
Defined.

(** A put event against one queue entry and the EventBridge configuration. *)
Lemma send_notifications_submits_witness :
  decides_every_entry all_enabled (sample_ctx s3_ObjectCreated_Put None)
    mixed_config /\
  send_notifications all_enabled (sample_ctx s3_ObjectCreated_Put None)
    mixed_config []
  = ([ task_for SqsNotifier (sample_ctx s3_ObjectCreated_Put None)
         (Entry created_entry);
       task_for EventBridgeNotifier (sample_ctx s3_ObjectCreated_Put None)
         EmptyConfig ],
     Returned tt).
Proof.
  assert (H : decides_every_entry all_enabled
                (sample_ctx s3_ObjectCreated_Put None) mixed_config).
  { intros item config [<-|[<-|[]]] _ [<-|[]]; eexists; reflexivity. }
  split; [exact H|].
  exact (proj1 (send_notifications_submits all_enabled
                  (sample_ctx s3_ObjectCreated_Put None) mixed_config [] H)).
Defined.

(** C3, as stated, fails on an event without a type: the queue entry
    makes [should_notify] raise, and the EventBridge entry, for which
    [should_notify] is true and whose service is enabled, is not
    submitted. *)
Lemma send_notifications_stops_at_raise :
  all_enabled (service_name EventBridgeNotifier) = true /\
  should_notify EventBridgeNotifier untyped_ctx EmptyConfig = Returned true /\
  send_notifications all_enabled untyped_ctx mixed_config []
  = ([], Raised (ValueError "substring not found")) /\
  ~ (forall t,
       In t (fst (send_notifications all_enabled untyped_ctx mixed_config []))
       <-> In t (matching_tasks all_enabled untyped_ctx mixed_config)).
Proof.
  repeat split.
  intros H.
  destruct (H (task_for EventBridgeNotifier untyped_ctx EmptyConfig)) as [_ H2].
  apply H2. simpl. now left.
Qed.

(** A completed restore on the event bus. *)
Lemma restore_event_bus_payload_witness :
  (event_type (sample_ctx s3_ObjectRestore_Completed None)
   = s3_ObjectRestore_Post \/
   event_type (sample_ctx s3_ObjectRestore_Completed None)
   = s3_ObjectRestore_Completed) /\
  exists entry event_details o,
    EventBridgeNotifier_get_event_payload sample_partition sample_now
      (sample_ctx s3_ObjectRestore_Completed None) = Returned entry /\
    Detail entry = Some event_details /\
    details_object event_details = Returned o /\
    PyDict.has_key "sequencer" o = false /\
    EntryTime entry = 1700000001123456%Z.
Proof.
  assert (H : event_type (sample_ctx s3_ObjectRestore_Completed None)
              = s3_ObjectRestore_Post \/
              event_type (sample_ctx s3_ObjectRestore_Completed None)
              = s3_ObjectRestore_Completed) by (right; reflexivity).
  split; [exact H|].
  destruct (restore_event_bus_payload sample_partition sample_now
              (sample_ctx s3_ObjectRestore_Completed None) H)
    as (entry & event_details & o & H1 & H2 & H3 & H4 & _ & _ & H7).
  exists entry, event_details, o.
  repeat split; try assumption.
  exact (proj2 (proj2 (proj2 (H7 eq_refl)))).
Defined.

(** C4, as stated, fails on a completed restore: the detail of its
    payload carries [source-storage-class]. *)
Lemma completed_restore_keeps_storage_class :
  exists entry event_details,
    EventBridgeNotifier_get_event_payload sample_partition sample_now
      (sample_ctx s3_ObjectRestore_Completed None) = Returned entry /\
    Detail entry = Some event_details /\
    PyDict.has_key "source-storage-class" event_details = true /\
    PyDict.get "source-storage-class" event_details = Some (VStr "GLACIER").
Proof. do 2 eexists. repeat split; reflexivity. Qed.

(** A completed restore in the generic record. *)
Lemma restore_completed_record_witness :
  event_type (sample_ctx s3_ObjectRestore_Completed None)
  = s3_ObjectRestore_Completed /\
  exists record,
    BaseNotifier_get_event_payload sample_partition sample_now "a1b2c3d4"
      (sample_ctx s3_ObjectRestore_Completed None) (Some "config-1")
    = Returned {| Records := [record] |} /\
    eventTime record = 1700000000623%Z.
Proof.
  split; [reflexivity|].
  destruct (restore_completed_record sample_partition sample_now "a1b2c3d4"
              (sample_ctx s3_ObjectRestore_Completed None) (Some "config-1")
              eq_refl) as (record & H1 & H2 & _).
  exists record. split; [exact H1 | exact H2].
Defined.

(** C6, as stated, fails on an empty version id: it is present and is not
    ["null"], and the object block has no [versionId]. *)
Lemma empty_version_id_has_no_field :
  key_version_id (sample_ctx s3_ObjectCreated_Put (Some EmptyString))
  = Some EmptyString /\
  EmptyString <> "null" /\
  exists record,
    BaseNotifier_get_event_payload sample_partition sample_now "a1b2c3d4"
      (sample_ctx s3_ObjectCreated_Put (Some EmptyString)) (Some "config-1")
    = Returned {| Records := [record] |} /\
    PyDict.has_key "versionId" (object (s3 record)) = false.
Proof.
  split; [reflexivity|]. split; [discriminate|].
  eexists. split; reflexivity.
Qed.



(** The entry of the witness after the call: it has its [Id], its first
    two rule names are capitalized, the third is as it was. *)
Lemma validation_leaves_entry_changed :
  _validate_notification sample_partitions sample_uid live_ok SqsNotifier
    (sample_verification (sample_entry ["s3:ObjectCreated:*"] three_rules) true)
    fresh_world
  = ({| Id := Some "uid-0";
        Arn := Some "arn:aws:sqs:us-east-1:000000000000:uploads";
        Events := ["s3:ObjectCreated:*"];
        Filter :=
          Some (filter_of_rules
                  [ {| Name := "Prefix"; Value := "images/" |};
                    {| Name := "Middle"; Value := "cat" |};
                    {| Name := "suffix"; Value := ".png" |} ]) |},
     {| uid_draws := 1; verify_calls := [] |},
     Raised (InvalidArgument name_message "Middle" "cat")).
Proof. reflexivity. Qed.

(** * The further properties on concrete inputs *)

(** An accepted queue entry with a rule named [PREFIX]. *)
Lemma accepted_entry_filter_witness :
  snd (_validate_notification sample_partitions sample_uid live_ok SqsNotifier
         (sample_verification
            (sample_entry ["s3:ObjectCreated:*"] [shouting_rule]) false)
         fresh_world)
  = Returned tt /\
  forall rule,
    In rule
      (rules_of
         (Filter
            (fst (fst (_validate_notification sample_partitions sample_uid
                         live_ok SqsNotifier
                         (sample_verification
                            (sample_entry ["s3:ObjectCreated:*"]
                               [shouting_rule]) false)
                         fresh_world))))) ->
    named_prefix_or_suffix rule /\ Value rule <> EmptyString.
Proof.
  split; [reflexivity|].
  exact (proj1 (accepted_entry_filter sample_partitions sample_uid live_ok
                  SqsNotifier
                  (sample_verification
                     (sample_entry ["s3:ObjectCreated:*"] [shouting_rule])
                     false)
                  fresh_world "images/cat.png" eq_refl)).
Defined.

(** The same entry validated twice without the live check. *)
Lemma validation_idempotent_witness :
  sample_uid 0 <> EmptyString /\
  _validate_notification sample_partitions sample_uid live_ok SqsNotifier
    (sample_verification
       (set_filter_rules [prefix_images]
          (set_Id "uid-0" (sample_entry ["s3:ObjectCreated:*"] [])))
       true)
    {| uid_draws := 1; verify_calls := [] |}
  = (set_filter_rules [prefix_images]
       (set_Id "uid-0" (sample_entry ["s3:ObjectCreated:*"] [])),
     {| uid_draws := 1; verify_calls := [] |}, Returned tt).
Proof.
  assert (H : sample_uid 0 <> EmptyString) by discriminate.
  split; [exact H|].
  exact (validation_idempotent sample_partitions sample_uid live_ok SqsNotifier
           (sample_verification
              (sample_entry ["s3:ObjectCreated:*"] [shouting_rule]) true)
           fresh_world {| uid_draws := 1; verify_calls := [] |}
           (set_filter_rules [prefix_images]
              (set_Id "uid-0" (sample_entry ["s3:ObjectCreated:*"] [])))
           eq_refl H eq_refl).
Defined.

(** A queue entry without an ARN. *)
Lemma malformed_arn_stops_validation_witness :
  SqsNotifier <> EventBridgeNotifier /\
  arn_matches sample_partitions (service_name SqsNotifier) EmptyString = false.
Proof.
  assert (H : SqsNotifier <> EventBridgeNotifier) by discriminate.
  split; [exact H|].
  exact (proj1 (malformed_arn_stops_validation sample_partitions sample_uid
                  live_ok SqsNotifier
                  (sample_verification
                     {| Id := None; Arn := None;
                        Events := ["s3:ObjectCreated:*"]; Filter := None |}
                     false)
                  fresh_world H) eq_refl).
Defined.

(** A queue that does not exist. *)
Lemma failed_live_check_witness :
  SqsNotifier <> EventBridgeNotifier /\
  snd (_validate_notification sample_partitions sample_uid live_missing
         SqsNotifier
         (sample_verification
            (sample_entry ["s3:ObjectCreated:*"] three_rules) false)
         fresh_world)
  = Raised (InvalidArgument
              "Unable to validate the following destination configurations"
              "arn:aws:sqs:us-east-1:000000000000:uploads"
              "The destination queue does not exist").
Proof.
  assert (H : SqsNotifier <> EventBridgeNotifier) by discriminate.
  split; [exact H|].
  exact (f_equal snd
           (failed_live_check sample_partitions sample_uid live_missing
              SqsNotifier
              (sample_verification
                 (sample_entry ["s3:ObjectCreated:*"] three_rules) false)
              fresh_world
              (InvalidArgument
                 "Unable to validate the following destination configurations"
                 "arn:aws:sqs:us-east-1:000000000000:uploads"
                 "The destination queue does not exist")
              H eq_refl eq_refl eq_refl)).
Defined.

(** A queue entry and the EventBridge configuration, live check on. *)
Lemma live_checks_in_order_witness :
  snd (verify_configuration sample_partitions sample_uid live_ok mixed_config
         false (sample_request "PutObject") "photos" fresh_world)
  = Returned tt /\
  verify_calls
    (snd (fst (verify_configuration sample_partitions sample_uid live_ok
                 mixed_config false (sample_request "PutObject") "photos"
                 fresh_world)))
  = [(SqsNotifier, "arn:aws:sqs:us-east-1:000000000000:uploads")].
Proof.
  split; [reflexivity|].
  exact (live_checks_in_order sample_partitions sample_uid live_ok mixed_config
           (sample_request "PutObject") "photos" fresh_world eq_refl).
Defined.

(** A put request against the mixed configuration. *)
Lemma handled_operations_dispatch_witness :
  In (rc_wire_name (sample_request "PutObject")) (map fst EVENT_OPERATION_MAP) /\
  snd (send_notifications all_enabled
         (from_request_context_native sample_quote sample_now
            (sample_request "PutObject") sample_bucket
            (S3DeleteMarker "images/cat.png" None))
         mixed_config [])
  = Returned tt.
Proof.
  assert (H : In (rc_wire_name (sample_request "PutObject"))
                (map fst EVENT_OPERATION_MAP)) by (left; reflexivity).
  split; [exact H|].
  exact (f_equal snd
           (proj2 (handled_operations_dispatch all_enabled sample_quote
                     sample_now (sample_request "PutObject") sample_bucket
                     (S3DeleteMarker "images/cat.png" None) mixed_config []
                     H))).
Defined.

(** A put event on the event bus. *)
Lemma created_event_bus_payload_witness :
  no_colon "Put" /\
  exists entry,
    EventBridgeNotifier_get_event_payload sample_partition sample_now
      (sample_ctx s3_ObjectCreated_Put None) = Returned entry /\
    DetailType entry = Some "Object Created".
Proof.
  assert (H : no_colon "Put") by (repeat split; discriminate).
  split; [exact H|].
  destruct (created_event_bus_payload sample_partition sample_now
              (sample_ctx s3_ObjectCreated_Put None) "Put" eq_refl H)
    as (entry & d & o & H1 & H2 & _).
  exists entry. split; assumption.
Defined.

(** A delete event on the event bus. *)
Lemma removed_event_bus_payload_witness :
  contains "ObjectRemoved"
    (event_type (sample_ctx s3_ObjectRemoved_Delete None)) = true /\
  exists entry,
    EventBridgeNotifier_get_event_payload sample_partition sample_now
      (sample_ctx s3_ObjectRemoved_Delete None) = Returned entry /\
    DetailType entry = Some "Object Deleted".
Proof.
  split; [reflexivity|].
  destruct (removed_event_bus_payload sample_partition sample_now
              (sample_ctx s3_ObjectRemoved_Delete None) eq_refl eq_refl)
    as (entry & d & o & H1 & H2 & _).
  exists entry. split; assumption.
Defined.

(** The entry of a put event. *)
Lemma event_bus_common_fields_witness :
  exists entry,
    EventBridgeNotifier_get_event_payload sample_partition sample_now
      (sample_ctx s3_ObjectCreated_Put None) = Returned entry /\
    Source entry = "aws.s3".
Proof.
  eexists. split; [reflexivity|].
  exact (proj1 (event_bus_common_fields sample_partition sample_now
                  (sample_ctx s3_ObjectCreated_Put None) _ eq_refl)).
Defined.

(** An ACL event on the event bus. *)
Lemma acl_and_tagging_event_bus_payload_witness :
  In (event_type (sample_ctx s3_ObjectAcl_Put None))
     [s3_ObjectAcl_Put; s3_ObjectTagging_Put; s3_ObjectTagging_Delete] /\
  exists entry,
    EventBridgeNotifier_get_event_payload sample_partition sample_now
      (sample_ctx s3_ObjectAcl_Put None) = Returned entry /\
    EntryTime entry = 1700000000123456%Z.
Proof.
  assert (H : In (event_type (sample_ctx s3_ObjectAcl_Put None))
                [s3_ObjectAcl_Put; s3_ObjectTagging_Put;
                 s3_ObjectTagging_Delete]) by (left; reflexivity).
  split; [exact H|].
  destruct (acl_and_tagging_event_bus_payload sample_partition sample_now
              (sample_ctx s3_ObjectAcl_Put None) H)
    as (entry & d & o & H1 & H2 & _).
  exists entry. split; assumption.
Defined.

(** An object with a version id in a bucket without versioning. *)
Lemma unversioned_bucket_hides_version_witness :
  truthy_opt (versioning_status sample_bucket) = false /\
  key_version_id
    (from_request_context_native sample_quote sample_now
       (sample_request "PutObject") sample_bucket
       (S3DeleteMarker "images/cat.png" (Some "3HL4kqtJvjVBH40Nrjfkd")))
  = None.
Proof.
  split; [reflexivity|].
  exact (proj1 (unversioned_bucket_hides_version sample_partition sample_now
                  sample_quote sample_now (sample_request "PutObject")
                  sample_bucket
                  (S3DeleteMarker "images/cat.png"
                     (Some "3HL4kqtJvjVBH40Nrjfkd"))
                  "a1b2c3d4" None eq_refl)).
Defined.

(** The ARN of a queue given to the topic notifier. *)
Lemma arn_of_another_service_witness :
  (forall p, In p sample_partitions -> no_colon p) /\
  SnsNotifier <> SqsNotifier /\
  SnsNotifier <> EventBridgeNotifier /\
  arn_matches sample_partitions (service_name SnsNotifier)
    "arn:aws:sqs:us-east-1:000000000000:uploads" = false.
Proof.
  assert (H1 : forall p, In p sample_partitions -> no_colon p).
  { intros p [<-|[<-|[<-|[]]]]; simpl; repeat split; discriminate. }
  assert (H2 : SnsNotifier <> SqsNotifier) by discriminate.
  assert (H3 : SnsNotifier <> EventBridgeNotifier) by discriminate.
  split; [exact H1|]. split; [exact H2|]. split; [exact H3|].
  exact (proj1 (arn_of_another_service sample_partitions sample_uid live_ok
                  SqsNotifier SnsNotifier
                  (sample_verification
                     (sample_entry ["s3:ObjectCreated:*"] []) true)
                  fresh_world H1 eq_refl H2 H3)).
Defined.


(** A queue entry with a rule named [PREFIX], validated with the live
    check. *)
Lemma validation_keeps_matching_witness :
  (forall rule,
     In rule
       (rules_of
          (Filter
             (configuration
                (sample_verification
                   (sample_entry ["s3:ObjectCreated:*"] [shouting_rule])
                   false)))) ->
     ascii_text (Name rule)) /\
  _matching_filter
    (Filter
       (fst (fst (_validate_notification sample_partitions sample_uid live_ok
                    SqsNotifier
                    (sample_verification
                       (sample_entry ["s3:ObjectCreated:*"] [shouting_rule])
                       false)
                    fresh_world))))
    "docs/file.png"
  = false.
Proof.
  assert (H : forall rule,
            In rule
              (rules_of
                 (Filter
                    (configuration
                       (sample_verification
                          (sample_entry ["s3:ObjectCreated:*"] [shouting_rule])
                          false)))) ->
            ascii_text (Name rule)).
  { intros rule [<-|[]]. simpl. repeat split; apply Nat.ltb_lt; reflexivity. }
  split; [exact H|].
  exact (validation_keeps_matching sample_partitions sample_uid live_ok
           SqsNotifier
           (sample_verification
              (sample_entry ["s3:ObjectCreated:*"] [shouting_rule]) false)
           fresh_world "docs/file.png" H).
Defined.
